(** * Multi-step RAG pipeline: a shallow embedding of [agents.py],
    [vector_store.py] and [document_processor.py].

    The pipeline threads one [AgentState] through four nodes
    (analyze_query, retrieve_context, check_for_tables, generate_response).
    Python exceptions are modelled by the [Result] type, the lazily loaded
    FAISS handle of [VectorStoreManager] by explicit state passing, and the
    external services (chat model, JSON decoder, file system, FAISS) by the
    fields of a [Collaborators] record.  Calls to [logger] have no influence
    on control flow and are left out. *)

From stdpp Require Import base option list strings gmap.

Open Scope string_scope.
Open Scope list_scope.

(** ** Python values and exceptions *)

(** Subclasses of [Exception] that the code raises or can receive.
    [JSONDecodeError] is the only class the inner handler of
    [_analyze_query] names; every other handler is [except Exception]. *)
Inductive Exception :=
| ValueError (msg : string)
| JSONDecodeError
| KeyError (key : string)
| TypeError
| AttributeError
| IndexError
| ServiceError (msg : string).   (* transport, auth, timeout, OSError, ... *)

Inductive Result (A : Type) :=
| Ok (a : A)
| Raise (e : Exception).
Arguments Ok {A} a.
Arguments Raise {A} e.

(** What [json.loads] can produce. A dict is listed key by key. *)
#[local] Unset Elimination Schemes.
Inductive JSON :=
| JNull
| JBool (b : bool)
| JNumber (lexeme : string)
| JString (s : string)
| JArray (items : list JSON)
| JObject (members : list (string * JSON)).
#[local] Set Elimination Schemes.

Fixpoint assoc (key : string) (members : list (string * JSON)) : option JSON :=
  match members with
  | [] => None
  | (k, v) :: rest => if decide (k = key) then Some v else assoc key rest
  end.

(** [data[key]] for a string key. *)
Definition getitem (data : JSON) (key : string) : Result JSON :=
  match data with
  | JObject members =>
      match assoc key members with
      | Some v => Ok v
      | None => Raise (KeyError key)
      end
  | _ => Raise TypeError
  end.

(** ** Strings *)

Definition nl : string := String (Ascii.ascii_of_nat 10) EmptyString.
Definition dq : string := String (Ascii.ascii_of_nat 34) EmptyString.

(** [str.lower] on the ASCII letters. Outside ASCII no character lowers to
    one of the letters of the marker, so the marker test below is the
    same as Python's. *)
Definition lower_ascii (c : Ascii.ascii) : Ascii.ascii :=
  let n := Ascii.nat_of_ascii c in
  if Nat.leb 65 n && Nat.leb n 90 then Ascii.ascii_of_nat (n + 32) else c.

Fixpoint lower (s : string) : string :=
  match s with
  | EmptyString => EmptyString
  | String c rest => String (lower_ascii c) (lower rest)
  end.

(** [needle in hay] *)
Fixpoint contains (needle hay : string) : bool :=
  String.prefix needle hay ||
  match hay with
  | EmptyString => false
  | String _ rest => contains needle rest
  end.

(** [sep.join(parts)] *)
Definition join (sep : string) (parts : list string) : string :=
  String.concat sep parts.

(** ** Data model *)

(** A langchain [Document]; equality is field by field. *)
Record Document := mkDocument {
  page_content : string;
  metadata : gmap string string
}.

#[global] Instance Document_eq_dec : EqDecision Document.
Proof. solve_decision. Defined.

Record AIMessage := mkAIMessage { content : string }.

(** What [llm.invoke] hands back: [None], or an object that may or may not
    carry a [content] attribute. *)
Inductive Response :=
| RNone
| RObject (content_attr : option string).

Record AgentState := mkAgentState {
  messages : list AIMessage;
  context : list Document;
  question : string;
  search_query : JSON
}.

Definition set_messages (st : AgentState) (ms : list AIMessage) : AgentState :=
  mkAgentState ms (context st) (question st) (search_query st).
Definition set_context (st : AgentState) (ctx : list Document) : AgentState :=
  mkAgentState (messages st) ctx (question st) (search_query st).
Definition set_search_query (st : AgentState) (q : JSON) : AgentState :=
  mkAgentState (messages st) (context st) (question st) q.

(** ** The embedding index *)

(** Modelled from the spec: the FAISS index, a third-party object whose code
    is not part of the repository. An index answers a query with its chunks
    ranked by descending similarity (ties in insertion order). The call may
    raise: [VectorStoreManager.search] wraps it in a handler that logs and
    re-raises. *)
Record FAISS := mkFAISS {
  ranking : JSON -> Result (list Document)
}.

(** Modelled from the spec: [FAISS.similarity_search(query, k)] returns up to
    [k] chunks, the head of the ranking. *)
Definition similarity_search (vs : FAISS) (query : JSON) (k : nat)
  : Result (list Document) :=
  match ranking vs query with
  | Ok docs => Ok (take k docs)
  | Raise e => Raise e
  end.

(** The one mutable attribute of [VectorStoreManager]. *)
Record VectorStoreManager := mkManager {
  vector_store : option FAISS
}.

(** ** External collaborators *)

Definition Message : Type := string * string.   (* role, content *)

Record Collaborators := mkCollaborators {
  (* AzureChatOpenAI.invoke *)
  llm_invoke : list Message -> Result Response;
  (* json.loads on a str: [None] stands for JSONDecodeError *)
  json_loads : string -> option JSON;
  (* self.index_path.exists() *)
  index_path_exists : bool;
  (* FAISS.load_local(index_path, embeddings, ...) *)
  load_local : Result FAISS;
  (* the [with open("temp_context.txt", "w")] block of _generate_response *)
  dump_context : string -> list Document -> Result unit
}.

(** ** Exceptions and state: the monad of the agent's methods *)

Definition M (A : Type) : Type :=
  VectorStoreManager -> Result A * VectorStoreManager.

Definition ret {A} (a : A) : M A := fun s => (Ok a, s).
Definition raise {A} (e : Exception) : M A := fun s => (Raise e, s).
Definition bind {A B} (m : M A) (f : A -> M B) : M B :=
  fun s => match m s with
           | (Ok a, s') => f a s'
           | (Raise e, s') => (Raise e, s')
           end.
Definition lift {A} (r : Result A) : M A := fun s => (r, s).
Definition try_except {A} (body : M A) (handler : Exception -> M A) : M A :=
  fun s => match body s with
           | (Ok a, s') => (Ok a, s')
           | (Raise e, s') => handler e s'
           end.

Notation "x <- m ;; k" := (bind m (fun x => k))
  (at level 100, m at next level, right associativity).
Notation "m ;;; k" := (bind m (fun _ => k))
  (at level 100, right associativity).

(** The same for code that does not touch the manager. *)
Definition rbind {A B} (r : Result A) (f : A -> Result B) : Result B :=
  match r with
  | Ok a => f a
  | Raise e => Raise e
  end.
Definition rtry {A} (body : Result A) (handler : Exception -> Result A)
  : Result A :=
  match body with
  | Ok a => Ok a
  | Raise e => handler e
  end.

Notation "x <~ r ;; k" := (rbind r (fun x => k))
  (at level 100, r at next level, right associativity).

(** ** Fixed texts of the source *)

Definition IndexNotInitialized : Exception :=
  ValueError "Vector store not found. Please run ingest_docs.py first.".

Definition analysis_system_prompt : string :=
  join nl [
    "You are a query analysis assistant that helps identify tariff-related information in user questions.";
    "                Your task is to:";
    "                1. Identify if the question is about a specific tariff (e.g., anchorage dues, port charges, etc.)";
    "                2. Extract the relevant tariff name if present";
    "                3. Construct an appropriate search query";
    "                ";
    "                Respond in JSON format with the following structure:";
    "                {";
    "                    " +:+ dq +:+ "is_tariff_related" +:+ dq +:+ ": boolean,";
    "                    " +:+ dq +:+ "tariff_name" +:+ dq +:+ ": string or null,";
    "                    " +:+ dq +:+ "search_query" +:+ dq +:+ ": string";
    "                }" ].

Definition generation_system_prompt : string :=
  "You are a helpful assistant that answers questions based on the provided context. If you cannot answer based on the context, say so. Always provide a response, even if it's to say you don't have enough information.".

Definition apology : string :=
  "I apologize, but I couldn't generate a response based on the available context. Please try rephrasing your question or provide more specific details.".

Definition error_fallback : string :=
  "I encountered an error while processing your question. Please try again or rephrase your question.".

Definition analysis_messages (question : string) : list Message :=
  [("system", analysis_system_prompt); ("human", question)].

Definition generation_messages (question formatted_context : string)
  : list Message :=
  [("developer", generation_system_prompt);
   ("user", "Context: " +:+ formatted_context +:+ nl +:+ nl +:+
            "Question: " +:+ question)].

(** ** Attribute access and truth values of a response *)

Definition getattr_content (r : Response) : Result string :=
  match r with
  | RObject (Some c) => Ok c
  | _ => Raise AttributeError
  end.

Definition hasattr_content (r : Response) : bool :=
  match r with
  | RObject (Some _) => true
  | _ => false
  end.

Definition truthy (r : Response) : bool :=
  match r with
  | RNone => false
  | RObject _ => true
  end.

Definition is_empty (s : string) : bool :=
  match s with
  | EmptyString => true
  | String _ _ => false
  end.

(** ** document_processor.py *)

Definition has_table (chunk : Document) : Prop :=
  contains "table" (lower (page_content chunk)) = true.

#[global] Instance has_table_dec chunk : Decision (has_table chunk).
Proof. unfold has_table. apply _. Defined.

Definition find_table_reference (chunk : Document) (all_chunks : list Document)
  : list Document :=
  if decide (has_table chunk) then
    filter (fun other_chunk => other_chunk <> chunk /\ has_table other_chunk)
           all_chunks
  else [].

(** ** The loops of [_check_for_tables] *)

(** [for chunk in context: additional_context.extend(find_table_reference(chunk, context))] *)
Definition collect_table_refs (context : list Document) : list Document :=
  fold_left (fun additional_context chunk =>
               additional_context ++ find_table_reference chunk context)
            context [].

(** [for chunk in additional_context: if chunk not in context: context.append(chunk)] *)
Definition add_unique (context additional_context : list Document)
  : list Document :=
  fold_left (fun context chunk =>
               if decide (chunk ∈ context) then context
               else context ++ [chunk])
            additional_context context.

(** The two loops together, on the context list. *)
Definition expand_context (context : list Document) : list Document :=
  add_unique context (collect_table_refs context).

(** ** Helpers of [_generate_response] *)

(** ["\n\n".join([chunk.page_content for chunk in context])] *)
Definition format_context (context : list Document) : string :=
  join (nl +:+ nl) (map page_content context).

(** [state["messages"].append(AIMessage(content=text))] *)
Definition append_message (state : AgentState) (text : string) : AgentState :=
  set_messages state (messages state ++ [mkAIMessage text]).

(** ** The agent *)

Section Pipeline.

Context (env : Collaborators).

(** *** vector_store.py *)

Definition get_store : M (option FAISS) := fun s => (Ok (vector_store s), s).
Definition put_store (vs : FAISS) : M unit :=
  fun _ => (Ok tt, mkManager (Some vs)).

Definition load_vector_store : M unit :=
  try_except
    ((if negb (index_path_exists env) then raise IndexNotInitialized
      else ret tt) ;;;
     vs <- lift (load_local env) ;;
     put_store vs)
    (fun e => raise e).

Definition search (query : JSON) (k : nat) : M (list Document) :=
  (loaded <- get_store ;;
   match loaded with
   | None => load_vector_store
   | Some _ => ret tt
   end) ;;;
  try_except
    (loaded <- get_store ;;
     match loaded with
     | Some vs => lift (similarity_search vs query k)
     | None => raise AttributeError
     end)
    (fun e => raise e).

(** *** agents.py *)

Definition loads (text : string) : Result JSON :=
  match json_loads env text with
  | Some data => Ok data
  | None => Raise JSONDecodeError
  end.

Definition _analyze_query (state : AgentState) : Result AgentState :=
  let q := question state in
  rtry
    (analysis <~ llm_invoke env (analysis_messages q) ;;
     rtry
       (text <~ getattr_content analysis ;;
        analysis_data <~ loads text ;;
        v <~ getitem analysis_data "search_query" ;;
        Ok (set_search_query state v))
       (fun e => match e with
                 | JSONDecodeError => Ok (set_search_query state (JString q))
                 | _ => Raise e
                 end))
    (fun _ => Ok (set_search_query state (JString q))).

Definition _retrieve_context (state : AgentState) : M AgentState :=
  try_except
    (ctx <- search (search_query state) 3 ;;
     ret (set_context state ctx))
    (fun e => raise e).

Definition _check_for_tables (state : AgentState) : Result AgentState :=
  rtry
    (let ctx := context state in
     Ok (set_context state (expand_context ctx)))
    (fun e => Raise e).

Definition _generate_response (state : AgentState) : Result AgentState :=
  rtry
    (let q := question state in
     let ctx := context state in
     let formatted_context := format_context ctx in
     _ <~ dump_context env q ctx ;;
     response <~ llm_invoke env (generation_messages q formatted_context) ;;
     (* the logged text reads response.content whenever response is truthy *)
     _ <~ (if truthy response then getattr_content response else Ok "None") ;;
     _ <~ (if negb (truthy response)
           then Raise (ValueError "No response object received from the model")
           else Ok tt) ;;
     _ <~ (if negb (hasattr_content response)
           then Raise (ValueError "Response object missing content attribute.")
           else Ok tt) ;;
     text <~ getattr_content response ;;
     let response_content := if is_empty text then apology else text in
     Ok (append_message state response_content))
    (fun _ => Ok (append_message state error_fallback)).

(** The compiled graph: analyze_query -> retrieve_context ->
    check_for_tables -> generate_response, each node taking the state the
    previous one returned; an exception of a node ends the run. *)
Definition workflow_invoke (state : AgentState) : M AgentState :=
  s1 <- lift (_analyze_query state) ;;
  s2 <- _retrieve_context s1 ;;
  s3 <- lift (_check_for_tables s2) ;;
  lift (_generate_response s3).

Definition initial_state (q : string) : AgentState :=
  mkAgentState [] [] q (JString "").

Definition process_question (q : string) : M string :=
  try_except
    (final_state <- workflow_invoke (initial_state q) ;;
     match last (messages final_state) with
     | Some m => ret (content m)
     | None => raise IndexError
     end)
    (fun e => raise e).

End Pipeline.

(** ** Vocabulary of the properties *)

(** The value of the "search_query" member of the model's structured
    answer, when the answer has content, the content decodes, and the
    decoded value is an object with that member. *)
Definition structured_output (env : Collaborators) (r : Response)
  : option JSON :=
  match r with
  | RObject (Some text) =>
      match json_loads env text with
      | Some (JObject members) => assoc "search_query" members
      | _ => None
      end
  | _ => None
  end.

(** The analysis call failed: the model raised, or its content does not
    decode, or what it returned carries no "search_query" member. *)
Inductive analysis_failed (env : Collaborators) (q : string) : Prop :=
| model_raised e :
    llm_invoke env (analysis_messages q) = Raise e ->
    analysis_failed env q
| content_undecodable text :
    llm_invoke env (analysis_messages q) = Ok (RObject (Some text)) ->
    json_loads env text = None ->
    analysis_failed env q
| output_unstructured r :
    llm_invoke env (analysis_messages q) = Ok r ->
    structured_output env r = None ->
    analysis_failed env q.

Definition nonempty_string (v : JSON) : Prop :=
  exists s, v = JString s /\ s <> "".

(** ** Sample collaborators *)

Module Scenarios.

Definition tariff_pdf : gmap string string := {[ "source" := "tariff.pdf" ]}.

Definition anchorage_chunk : Document :=
  mkDocument "Anchorage dues are $5/GT, see Table 1 for details." tariff_pdf.
Definition table_chunk : Document :=
  mkDocument "Table 1: $5 per gross ton." tariff_pdf.
Definition pilotage_chunk : Document :=
  mkDocument "Pilotage is compulsory for vessels above 500 GT." tariff_pdf.
Definition berth_chunk : Document :=
  mkDocument "Berth hire is charged per hour alongside." tariff_pdf.

Definition raw_question : string := "What is the anchorage due?".

(** An index of four chunks; the rewritten query ranks the anchorage
    chunk first, any other text the pilotage chunk. *)
Definition tariff_index : FAISS :=
  mkFAISS (fun query =>
    match query with
    | JString text =>
        if decide (text = "anchorage dues cost")
        then Ok [anchorage_chunk; table_chunk; berth_chunk; pilotage_chunk]
        else Ok [pilotage_chunk; berth_chunk; table_chunk; anchorage_chunk]
    | _ => Raise TypeError
    end).

(** An index whose embedding service is unreachable. *)
Definition unreachable : Exception :=
  ServiceError "embedding endpoint unreachable".
Definition down_index : FAISS := mkFAISS (fun _ => Raise unreachable).

Definition analysis_text : string :=
  "{" +:+ dq +:+ "is_tariff_related" +:+ dq +:+ ": true, " +:+
  dq +:+ "tariff_name" +:+ dq +:+ ": " +:+ dq +:+ "anchorage dues" +:+ dq +:+
  ", " +:+ dq +:+ "search_query" +:+ dq +:+ ": " +:+
  dq +:+ "anchorage dues cost" +:+ dq +:+ "}".

Definition empty_query_text : string :=
  "{" +:+ dq +:+ "is_tariff_related" +:+ dq +:+ ": false, " +:+
  dq +:+ "tariff_name" +:+ dq +:+ ": null, " +:+
  dq +:+ "search_query" +:+ dq +:+ ": " +:+ dq +:+ dq +:+ "}".

Definition chatty_text : string := "Sure! The question is about anchorage.".

(** [json.loads] on the three texts above. *)
Definition sample_loads (text : string) : option JSON :=
  if decide (text = analysis_text) then
    Some (JObject [("is_tariff_related", JBool true);
                   ("tariff_name", JString "anchorage dues");
                   ("search_query", JString "anchorage dues cost")])
  else if decide (text = empty_query_text) then
    Some (JObject [("is_tariff_related", JBool false);
                   ("tariff_name", JNull);
                   ("search_query", JString "")])
  else None.

Definition first_role (ms : list Message) : string :=
  match ms with
  | (role, _) :: _ => role
  | [] => ""
  end.

(** A chat model that answers the analysis prompt with [analysis] and the
    generation prompt with [generation]. *)
Definition chat (analysis generation : Result Response)
  : list Message -> Result Response :=
  fun ms => if decide (first_role ms = "system") then analysis else generation.

Definition answer_text : string := "Anchorage dues are $5 per gross ton.".

Definition make_env (analysis generation : Result Response)
    (on_disk : bool) (loaded : Result FAISS) : Collaborators :=
  mkCollaborators (chat analysis generation) sample_loads on_disk loaded
                  (fun _ _ => Ok tt).

Definition told (text : string) : Result Response := Ok (RObject (Some text)).

Definition env_ok : Collaborators :=
  make_env (told analysis_text) (told answer_text) true (Ok tariff_index).
Definition env_down : Collaborators :=
  make_env (told analysis_text) (told answer_text) true (Ok down_index).
Definition env_absent : Collaborators :=
  make_env (told analysis_text) (told answer_text) false
           (Raise (ServiceError "no such file")).
Definition env_chatty : Collaborators :=
  make_env (told chatty_text) (told answer_text) true (Ok tariff_index).
Definition env_empty_query : Collaborators :=
  make_env (told empty_query_text) (told answer_text) true (Ok tariff_index).
Definition env_null_response : Collaborators :=
  make_env (told analysis_text) (Ok RNone) true (Ok tariff_index).
Definition env_empty_content : Collaborators :=
  make_env (told analysis_text) (told "") true (Ok tariff_index).

Definition fresh : VectorStoreManager := mkManager None.
Definition loaded (vs : FAISS) : VectorStoreManager := mkManager (Some vs).

End Scenarios.

(** ** More sample collaborators *)

Module MoreScenarios.

Import Scenarios.

Definition timed_out : Exception := ServiceError "request timed out".
Definition read_only : Exception :=
  ServiceError "Permission denied: temp_context.txt".
Definition corrupt : Exception := ServiceError "index file is truncated".

(** The chat model answers the analysis and times out on the generation. *)
Definition env_model_down : Collaborators :=
  make_env (told analysis_text) (Raise timed_out) true (Ok tariff_index).

(** The working directory is read-only: the context dump fails. *)
Definition env_read_only : Collaborators :=
  mkCollaborators (chat (told analysis_text) (told answer_text)) sample_loads
                  true (Ok tariff_index) (fun _ _ => Raise read_only).

(** The index directory is there and cannot be loaded. *)
Definition env_corrupt : Collaborators :=
  make_env (told analysis_text) (told answer_text) true (Raise corrupt).

Definition analysed : AgentState :=
  mkAgentState [] [] raw_question (JString "anchorage dues cost").
Definition top3 : list Document :=
  [anchorage_chunk; table_chunk; berth_chunk].

End MoreScenarios.

(** ** Ingestion: document_processor.py, vector_store.py, ingest_docs.py *)

(** [s.split(sep)] for a one-character separator. *)
Fixpoint split_on (sep : Ascii.ascii) (s : string) : list string :=
  match s with
  | EmptyString => [EmptyString]
  | String c rest =>
      if decide (c = sep) then EmptyString :: split_on sep rest
      else match split_on sep rest with
           | first :: others => String c first :: others
           | [] => [String c EmptyString]
           end
  end.

Definition newline : Ascii.ascii := Ascii.ascii_of_nat 10.

(** What ingestion needs from outside the repository. A PDF file is known by
    its name in the Docs directory. [str.isupper] and [len] depend on
    Unicode tables and are taken as given. *)
Record Ingestion := mkIngestion {
  str_isupper : string -> bool;
  str_len : string -> nat;
  (* PdfReader(path).pages, each page with the outcome of extract_text() *)
  pdf_reader : string -> Result (list (Result string));
  (* MarkdownHeaderTextSplitter.split_text *)
  split_text : string -> Result (list Document);
  (* DOCS_DIR.exists() and the names of DOCS_DIR.glob("*.pdf") *)
  docs_dir_exists : bool;
  glob_pdf : list string;
  (* VectorStoreManager(), which builds the embeddings client *)
  make_manager : Result unit;
  (* FAISS.from_documents and FAISS.save_local *)
  from_documents : list Document -> Result FAISS;
  save_local : FAISS -> Result unit;
  (* shutil.rmtree(VECTOR_STORE_DIR) and VECTOR_STORE_DIR.mkdir(exist_ok=True) *)
  rmtree : Result unit;
  mkdir : Result unit
}.

(** The vector store directory: absent ([None]), present without a saved
    index ([Some None]) or present with one. [shutil.rmtree] removes the
    directory with what it holds, [mkdir(exist_ok=True)] creates it when it is
    absent, and [save_local] writes the index into it. The pause of
    [time.sleep] has no place in this model. *)
Record World := mkWorld {
  manager : VectorStoreManager;
  store_dir : option (option FAISS)
}.

Definition W (A : Type) : Type := World -> Result A * World.

Definition wret {A} (a : A) : W A := fun w => (Ok a, w).
Definition wraise {A} (e : Exception) : W A := fun w => (Raise e, w).
Definition wbind {A B} (m : W A) (f : A -> W B) : W B :=
  fun w => match m w with
           | (Ok a, w') => f a w'
           | (Raise e, w') => (Raise e, w')
           end.
Definition wlift {A} (r : Result A) : W A := fun w => (r, w).
Definition wtry {A} (body : W A) (handler : Exception -> W A) : W A :=
  fun w => match body w with
           | (Ok a, w') => (Ok a, w')
           | (Raise e, w') => handler e w'
           end.
Definition set_manager (m : VectorStoreManager) : W unit :=
  fun w => (Ok tt, mkWorld m (store_dir w)).
Definition get_store_dir : W (option (option FAISS)) :=
  fun w => (Ok (store_dir w), w).
Definition set_store_dir (d : option (option FAISS)) : W unit :=
  fun w => (Ok tt, mkWorld (manager w) d).
(** A method of the manager, run on the manager of the world. *)
Definition on_manager {A} (m : M A) : W A :=
  fun w => match m (manager w) with
           | (r, mgr) => (r, mkWorld mgr (store_dir w))
           end.

Notation "x <~~ m ;; k" := (wbind m (fun x => k))
  (at level 100, m at next level, right associativity).
Notation "m ;;> k" := (wbind m (fun _ => k))
  (at level 100, right associativity).

Definition set_source (name : string) (chunk : Document) : Document :=
  mkDocument (page_content chunk) (<["source" := name]> (metadata chunk)).

Section Ingest.

Context (io : Ingestion).

(** *** document_processor.py *)

(** [line.isupper() and len(line) < 100] *)
Definition is_heading (line : string) : bool :=
  str_isupper io line && bool_decide (str_len io line < 100).

Definition render_line (line : string) : string :=
  if is_heading line then "# " +:+ line else line.

(** One pass of the loop over [reader.pages], after [extract_text]. *)
Definition render_page (text : string) : list string :=
  map render_line (split_on newline text) ++ [nl +:+ nl].

(** The markdown a page contributes: its rendered lines, one per line, and
    the three newlines that the page separator and the final join add. *)
Definition page_markdown (text : string) : string :=
  join nl (map render_line (split_on newline text)) +:+ nl +:+ nl +:+ nl.

Fixpoint render_pages (pages : list (Result string))
    (markdown_content : list string) : Result (list string) :=
  match pages with
  | [] => Ok markdown_content
  | page :: rest =>
      text <~ page ;;
      render_pages rest (markdown_content ++ render_page text)
  end.

Definition convert_pdf_to_markdown (pdf_path : string) : Result string :=
  rtry
    (pages <~ pdf_reader io pdf_path ;;
     markdown_content <~ render_pages pages [] ;;
     Ok (join nl markdown_content))
    (fun e => Raise e).

(** The body of the [try] in [process_documents], for one file. *)
Definition process_file (pdf_file : string) : Result (list Document) :=
  markdown_content <~ convert_pdf_to_markdown pdf_file ;;
  chunks <~ split_text io markdown_content ;;
  Ok (map (set_source pdf_file) chunks).

(** What a file adds to [all_chunks]: nothing when its [try] block raised. *)
Definition chunks_of (pdf_file : string) : list Document :=
  match process_file pdf_file with
  | Ok chunks => chunks
  | Raise _ => []
  end.

Definition process_files (pdf_files : list string)
    (all_chunks : list Document) : list Document :=
  fold_left (fun all_chunks pdf_file =>
               match process_file pdf_file with
               | Ok chunks => all_chunks ++ chunks
               | Raise _ => all_chunks
               end)
            pdf_files all_chunks.

Definition process_documents : list Document :=
  process_files (glob_pdf io) [].

(** *** vector_store.py *)

Definition create_vector_store (chunks : list Document) : W unit :=
  wtry
    (vs <~~ wlift (from_documents io chunks) ;;
     set_manager (mkManager (Some vs)) ;;>
     wlift (save_local io vs) ;;>
     set_store_dir (Some (Some vs)))
    (fun e => wraise e).

(** *** ingest_docs.py *)

Definition clean_vector_store : W unit :=
  wtry
    (dir <~~ get_store_dir ;;
     match dir with
     | Some _ => wlift (rmtree io) ;;> set_store_dir None
     | None => wret tt
     end ;;>
     wlift (mkdir io) ;;>
     dir <~~ get_store_dir ;;
     match dir with
     | Some _ => wret tt
     | None => set_store_dir (Some None)
     end)
    (fun e => wraise e).

Definition ingest_documents : W unit :=
  wtry
    (if negb (docs_dir_exists io) then wret tt
     else
       match glob_pdf io with
       | [] => wret tt
       | _ :: _ =>
           clean_vector_store ;;>
           let chunks := process_documents in
           wlift (make_manager io) ;;>
           set_manager (mkManager None) ;;>
           create_vector_store chunks
       end)
    (fun e => wraise e).

End Ingest.

(** ** Sample ingestion runs *)

Module IngestScenarios.

Definition is_upper_letter (c : Ascii.ascii) : bool :=
  let n := Ascii.nat_of_ascii c in Nat.leb 65 n && Nat.leb n 90.
Definition is_lower_letter (c : Ascii.ascii) : bool :=
  let n := Ascii.nat_of_ascii c in Nat.leb 97 n && Nat.leb n 122.

Fixpoint any_char (p : Ascii.ascii -> bool) (s : string) : bool :=
  match s with
  | EmptyString => false
  | String c rest => p c || any_char p rest
  end.

(** [str.isupper] on ASCII text: some upper-case letter and no lower-case
    one. *)
Definition ascii_isupper (s : string) : bool :=
  any_char is_upper_letter s && negb (any_char is_lower_letter s).

Definition page1 : string :=
  "ANCHORAGE DUES" +:+ nl +:+
  "Anchorage dues are $5/GT, see Table 1 for details.".
Definition page2 : string := "Table 1: $5 per gross ton.".
Definition plain_page : string :=
  "Pilotage is compulsory." +:+ nl +:+ nl +:+ "See the harbour master.".

Definition undecodable : Exception := ServiceError "cannot decode stream".
Definition no_eof_marker : Exception := ServiceError "EOF marker not found".
Definition no_embeddings : Exception := ServiceError "embedding quota exceeded".
Definition disk_full : Exception := ServiceError "No space left on device".

Definition sample_reader (name : string) : Result (list (Result string)) :=
  if decide (name = "tariff.pdf") then Ok [Ok page1; Ok page2]
  else if decide (name = "pilotage.pdf") then Ok [Ok plain_page]
  else if decide (name = "scan.pdf") then Ok [Ok page2; Raise undecodable]
  else Raise no_eof_marker.

(** A splitter that keeps the whole text in one chunk. *)
Definition one_chunk (markdown : string) : Result (list Document) :=
  Ok [mkDocument markdown ∅].

(** An index that ranks its chunks in insertion order for every query. *)
Definition index_of (chunks : list Document) : FAISS :=
  mkFAISS (fun _ => Ok chunks).

Definition io_ok : Ingestion :=
  mkIngestion ascii_isupper String.length sample_reader one_chunk
              true ["tariff.pdf"; "scan.pdf"; "pilotage.pdf"] (Ok tt)
              (fun chunks => Ok (index_of chunks)) (fun _ => Ok tt)
              (Ok tt) (Ok tt).

Definition io_no_pdf : Ingestion :=
  mkIngestion ascii_isupper String.length sample_reader one_chunk
              true [] (Ok tt) (fun chunks => Ok (index_of chunks)) (fun _ => Ok tt)
              (Ok tt) (Ok tt).

Definition io_no_embeddings : Ingestion :=
  mkIngestion ascii_isupper String.length sample_reader one_chunk
              true ["tariff.pdf"] (Ok tt) (fun _ => Raise no_embeddings)
              (fun _ => Ok tt) (Ok tt) (Ok tt).

Definition io_disk_full : Ingestion :=
  mkIngestion ascii_isupper String.length sample_reader one_chunk
              true ["tariff.pdf"] (Ok tt)
              (fun chunks => Ok (index_of chunks))
              (fun _ => Raise disk_full) (Ok tt) (Ok tt).

Definition old_index : FAISS := index_of [mkDocument "old tariff" ∅].

Definition before : World := mkWorld (mkManager None) (Some (Some old_index)).

End IngestScenarios.

(** ** The command line: main.py *)

(** Other exception classes are carried under their name. *)
Definition EOFError : Exception := ServiceError "EOFError".

(** What [main] needs from outside the repository, besides the
    collaborators of the agent. [str.strip] depends on Unicode tables and
    is taken as given. *)
Record Shell := mkShell {
  str_strip : string -> string;
  (* VECTOR_STORE_DIR.exists() and list(VECTOR_STORE_DIR.glob("*")) *)
  vector_store_dir_exists : bool;
  vector_store_dir_listing : list string;
  (* the clients and the compiled graph built by RAGAgent.__init__ *)
  make_clients : Result unit;
  (* get_graph, draw_mermaid_png and the write of graph.png *)
  save_graph_png : Result unit
}.

(** The lines still to be read and what was written so far. *)
Record Terminal := mkTerminal {
  stdin : list string;
  stdout : list string
}.

(** [print(text)] *)
Definition print (text : string) (out : list string) : list string :=
  out ++ [text +:+ nl].

Definition banner : string := "Enter your questions (type 'exit' to quit):".
Definition prompt : string := nl +:+ "Question: ".
Definition response_header : string := nl +:+ "Response:".

Section Main.

Context (env : Collaborators) (sh : Shell).

Definition RAGAgent_init : Result VectorStoreManager :=
  _ <~ make_clients sh ;;
  _ <~ rtry (save_graph_png sh) (fun _ => Ok tt) ;;
  Ok (mkManager None).

(** The [while True] loop of the interactive mode; [input] writes the
    prompt and raises EOFError when no line is left. *)
Fixpoint question_loop (lines : list string) (agent : VectorStoreManager)
    (out : list string) : Result unit * Terminal :=
  let out := out ++ [prompt] in
  match lines with
  | [] => (Raise EOFError, mkTerminal [] out)
  | line :: rest =>
      let question := str_strip sh line in
      if decide (lower question = "exit") then (Ok tt, mkTerminal rest out)
      else
        match process_question env question agent with
        | (Ok response, agent') =>
            question_loop rest agent'
              (print response (print response_header out))
        | (Raise e, _) => (Raise e, mkTerminal rest out)
        end
  end.

(** [if question:] on an optional string. *)
Definition given (question : option string) : option string :=
  match question with
  | Some q => if is_empty q then None else Some q
  | None => None
  end.

(** [question.lower() == 'exit'] on a stripped line. *)
Definition says_exit (line : string) : Prop :=
  lower (str_strip sh line) = "exit".

(** The handler of [main] logs and re-raises. *)
Definition main (question : option string) (t : Terminal)
  : Result unit * Terminal :=
  if negb (vector_store_dir_exists sh)
     || bool_decide (vector_store_dir_listing sh = [])
  then (Ok tt, t)
  else
    match RAGAgent_init with
    | Raise e => (Raise e, t)
    | Ok agent =>
        match given question with
        | Some q =>
            match process_question env q agent with
            | (Ok response, _) =>
                (Ok tt,
                 mkTerminal (stdin t)
                   (print response (print response_header (stdout t))))
            | (Raise e, _) => (Raise e, t)
            end
        | None =>
            question_loop (stdin t) agent (print banner (stdout t))
        end
    end.

End Main.

(** ** Sample sessions *)

Module MainScenarios.

Import Scenarios.

Fixpoint lstrip (s : string) : string :=
  match s with
  | EmptyString => EmptyString
  | String c rest => if Ascii.is_space c then lstrip rest else s
  end.

(** [str.strip] on text whose only white space is ASCII. *)
Definition ascii_strip (s : string) : string :=
  String.rev (lstrip (String.rev (lstrip s))).

Definition shell_ok : Shell :=
  mkShell ascii_strip true ["faiss_index"] (Ok tt)
          (Raise (ServiceError "mermaid.ink unreachable")).
Definition shell_empty_dir : Shell :=
  mkShell ascii_strip true [] (Ok tt) (Ok tt).
Definition shell_stray_file : Shell :=
  mkShell ascii_strip true [".gitkeep"] (Ok tt) (Ok tt).

Definition session : Terminal :=
  mkTerminal [raw_question; "  EXIT "; "never read"] [].
Definition endless : Terminal :=
  mkTerminal [raw_question; "quit"] [].

End MainScenarios.

(** * Properties *)

(** ** Cross-reference expansion *)

Section Expansion.

Implicit Types (ctx add : list Document) (c chunk : Document).

Lemma find_table_reference_elem chunk ctx c :
  c ∈ find_table_reference chunk ctx -> c ∈ ctx.
Proof.
  unfold find_table_reference. case_decide.
  - intros Hc. apply list_elem_of_filter in Hc. tauto.
  - intros Hc. inversion Hc.
Qed.

Lemma fold_extend_elem ctx (l acc : list Document) c :
  (forall d, d ∈ acc -> d ∈ ctx) ->
  c ∈ fold_left (fun additional_context chunk =>
                   additional_context ++ find_table_reference chunk ctx) l acc ->
  c ∈ ctx.
Proof.
  revert acc. induction l as [|x l IH]; simpl; intros acc Hacc Hc.
  - auto.
  - apply (IH (acc ++ find_table_reference x ctx)); [|exact Hc].
    intros d Hd. apply elem_of_app in Hd as [Hd|Hd]; [auto|].
    eapply find_table_reference_elem; eauto.
Qed.

Lemma collect_table_refs_elem ctx c : c ∈ collect_table_refs ctx -> c ∈ ctx.
Proof.
  unfold collect_table_refs. apply fold_extend_elem.
  intros d Hd. inversion Hd.
Qed.

Lemma add_unique_nil ctx : add_unique ctx [] = ctx.
Proof. reflexivity. Qed.

Lemma add_unique_cons ctx c add :
  add_unique ctx (c :: add) =
  add_unique (if decide (c ∈ ctx) then ctx else ctx ++ [c]) add.
Proof. reflexivity. Qed.

(** Candidates that are already present leave the context as it is. *)
Lemma add_unique_present ctx add :
  (forall c, c ∈ add -> c ∈ ctx) -> add_unique ctx add = ctx.
Proof.
  revert ctx. induction add as [|x add IH]; intros ctx Hin.
  - reflexivity.
  - rewrite add_unique_cons. rewrite decide_True by (apply Hin; left).
    apply IH. intros c Hc. apply Hin. by right.
Qed.

Lemma add_unique_keeps ctx add c : c ∈ ctx -> c ∈ add_unique ctx add.
Proof.
  revert ctx. induction add as [|x add IH]; intros ctx Hc.
  - exact Hc.
  - rewrite add_unique_cons. apply IH. case_decide; [exact Hc|].
    apply elem_of_app. by left.
Qed.

Lemma add_unique_covers ctx add c : c ∈ add -> c ∈ add_unique ctx add.
Proof.
  revert ctx. induction add as [|x add IH]; intros ctx Hc.
  - inversion Hc.
  - rewrite add_unique_cons. apply elem_of_cons in Hc as [->|Hc].
    + apply add_unique_keeps. case_decide; [assumption|].
      apply elem_of_app. right. by left.
    + by apply IH.
Qed.

Lemma add_unique_idempotent ctx add :
  add_unique (add_unique ctx add) add = add_unique ctx add.
Proof. apply add_unique_present. intros c. apply add_unique_covers. Qed.

Lemma expand_context_id ctx : expand_context ctx = ctx.
Proof.
  unfold expand_context. apply add_unique_present.
  intros c. apply collect_table_refs_elem.
Qed.

Lemma set_context_same st : set_context st (context st) = st.
Proof. by destruct st. Qed.

Lemma check_for_tables_ok st : _check_for_tables st = Ok st.
Proof.
  unfold _check_for_tables. simpl.
  by rewrite expand_context_id, set_context_same.
Qed.

End Expansion.

(** ** Query analysis *)

Section Analysis.

Context (env : Collaborators).

Lemma undecodable_has_no_output text :
  json_loads env text = None ->
  structured_output env (RObject (Some text)) = None.
Proof. intros H. simpl. by rewrite H. Qed.

Lemma analyze_query_raise st e :
  llm_invoke env (analysis_messages (question st)) = Raise e ->
  _analyze_query env st = Ok (set_search_query st (JString (question st))).
Proof. intros H. unfold _analyze_query. by rewrite H. Qed.

Lemma analyze_query_fallback st r :
  llm_invoke env (analysis_messages (question st)) = Ok r ->
  structured_output env r = None ->
  _analyze_query env st = Ok (set_search_query st (JString (question st))).
Proof.
  intros Hr Hout. unfold _analyze_query. rewrite Hr. simpl.
  destruct r as [|[text|]]; simpl in *; try reflexivity.
  unfold loads. destruct (json_loads env text) as [data|]; simpl;
    [|reflexivity].
  destruct data; simpl; try reflexivity. by rewrite Hout.
Qed.

Lemma analyze_query_success st r v :
  llm_invoke env (analysis_messages (question st)) = Ok r ->
  structured_output env r = Some v ->
  _analyze_query env st = Ok (set_search_query st v).
Proof.
  intros Hr Hout. unfold _analyze_query. rewrite Hr. simpl.
  destruct r as [|[text|]]; simpl in *; try discriminate.
  unfold loads. destruct (json_loads env text) as [data|]; simpl;
    [|discriminate].
  destruct data; simpl; try discriminate. by rewrite Hout.
Qed.

(** The stage never raises and only writes [search_query]. *)
Lemma analyze_query_total st :
  exists v, _analyze_query env st = Ok (set_search_query st v).
Proof.
  destruct (llm_invoke env (analysis_messages (question st))) as [r|e] eqn:Hr.
  - destruct (structured_output env r) as [v|] eqn:Hout.
    + exists v. eauto using analyze_query_success.
    + eexists. eauto using analyze_query_fallback.
  - eexists. eauto using analyze_query_raise.
Qed.

End Analysis.

(** ** Retrieval *)

Section Retrieval.

Context (env : Collaborators).

Lemma load_vector_store_absent mgr :
  index_path_exists env = false ->
  load_vector_store env mgr = (Raise IndexNotInitialized, mgr).
Proof.
  intros H. unfold load_vector_store, try_except, bind. by rewrite H.
Qed.

Lemma search_absent q k mgr :
  vector_store mgr = None -> index_path_exists env = false ->
  search env q k mgr = (Raise IndexNotInitialized, mgr).
Proof.
  intros Hnone Hpath. unfold search, bind, get_store. rewrite Hnone.
  by rewrite load_vector_store_absent.
Qed.

Lemma similarity_search_length vs q k docs :
  similarity_search vs q k = Ok docs -> length docs <= k.
Proof.
  unfold similarity_search. destruct (ranking vs q); [|discriminate].
  intros [= <-]. rewrite length_take. lia.
Qed.

Lemma search_length q k mgr ctx mgr' :
  search env q k mgr = (Ok ctx, mgr') -> length ctx <= k.
Proof.
  unfold search, bind, try_except, get_store, lift, raise, ret.
  destruct (match vector_store mgr with
            | Some _ => _ | None => _ end) as [[[]|e] m]; [|discriminate].
  destruct (vector_store m) as [vs|]; [|discriminate].
  destruct (similarity_search vs q k) eqn:Hs; [|discriminate].
  intros [= <- _]. eauto using similarity_search_length.
Qed.

Lemma search_loaded q k mgr vs :
  vector_store mgr = Some vs ->
  search env q k mgr = (similarity_search vs q k, mgr).
Proof.
  intros Hvs. unfold search, bind, try_except, get_store, lift, raise, ret.
  rewrite Hvs. simpl. rewrite Hvs. by destruct (similarity_search vs q k).
Qed.

Lemma search_loads q k mgr vs :
  vector_store mgr = None ->
  index_path_exists env = true -> load_local env = Ok vs ->
  search env q k mgr = (similarity_search vs q k, mkManager (Some vs)).
Proof.
  intros Hnone Hpath Hload.
  unfold search, load_vector_store, put_store.
  unfold bind, try_except, get_store, lift, raise, ret.
  rewrite Hnone. simpl. rewrite Hpath, Hload. simpl.
  by destruct (similarity_search vs q k).
Qed.

Lemma retrieve_context_search st mgr :
  _retrieve_context env st mgr =
  match search env (search_query st) 3 mgr with
  | (Ok ctx, m) => (Ok (set_context st ctx), m)
  | (Raise e, m) => (Raise e, m)
  end.
Proof.
  unfold _retrieve_context, try_except, bind, ret, raise.
  by destruct (search env (search_query st) 3 mgr) as [[ctx|e] m].
Qed.

End Retrieval.

(** ** Answer generation *)

Section Generation.

Context (env : Collaborators).

Lemma apology_nonempty : apology <> "".
Proof. discriminate. Qed.

Lemma error_fallback_nonempty : error_fallback <> "".
Proof. discriminate. Qed.

Lemma generate_response_invalid st r :
  llm_invoke env (generation_messages (question st) (format_context (context st))) = Ok r ->
  hasattr_content r = false ->
  _generate_response env st = Ok (append_message st error_fallback).
Proof.
  intros Hr Hno. unfold _generate_response.
  destruct (dump_context env (question st) (context st)) as [[]|e];
    [|reflexivity].
  simpl. rewrite Hr. simpl. by destruct r as [|[text|]].
Qed.

Lemma generate_response_content st text :
  dump_context env (question st) (context st) = Ok tt ->
  llm_invoke env (generation_messages (question st) (format_context (context st)))
    = Ok (RObject (Some text)) ->
  _generate_response env st =
  Ok (append_message st (if is_empty text then apology else text)).
Proof.
  intros Hdump Hr. unfold _generate_response.
  rewrite Hdump. simpl. rewrite Hr. reflexivity.
Qed.

(** The stage never raises: it appends one message, the model's non-empty
    text or one of the two fixed texts. *)
Lemma generate_response_cases st :
  exists text,
    _generate_response env st = Ok (append_message st text) /\
    text <> "" /\
    (text = apology \/ text = error_fallback \/
     llm_invoke env (generation_messages (question st) (format_context (context st)))
       = Ok (RObject (Some text))).
Proof.
  destruct (dump_context env (question st) (context st)) as [[]|e] eqn:Hdump.
  - destruct (llm_invoke env (generation_messages (question st) (format_context (context st))))
      as [r|e] eqn:Hr.
    + destruct r as [|[text|]].
      * exists error_fallback. split; [|split; [discriminate|auto]].
        eapply generate_response_invalid; eauto.
      * rewrite (generate_response_content st text Hdump Hr).
        destruct text as [|a text]; simpl.
        -- exists apology. split; [done|split; [discriminate|auto]].
        -- exists (String a text). split; [done|split; [discriminate|auto]].
      * exists error_fallback. split; [|split; [discriminate|auto]].
        eapply generate_response_invalid; eauto.
    + exists error_fallback. split; [|split; [discriminate|auto]].
      unfold _generate_response. rewrite Hdump. simpl.
      by rewrite Hr.
  - exists error_fallback. split; [|split; [discriminate|auto]].
    unfold _generate_response. by rewrite Hdump.
Qed.

End Generation.

(** C4: the expansion stage returns its input state: every candidate comes
    from the context itself, the membership test then finds it, nothing is
    appended, and the context after the stage is the context before it. *)
Theorem check_for_tables_identity (st : AgentState) :
  collect_table_refs (context st) ⊆ context st /\
  expand_context (context st) = context st /\
  _check_for_tables st = Ok st.
Proof.
  split; [intros c; apply collect_table_refs_elem|].
  split; [apply expand_context_id|apply check_for_tables_ok].
Qed.

(** C5: a second expansion pass changes nothing, on the stage and on the
    context list; the dedup loop compares chunks by their fields, so running
    it again with the same candidates, wherever they come from, appends
    none of them a second time, and a chunk rebuilt from the fields of a
    present one counts as present. *)
Theorem expansion_idempotent (st : AgentState) :
  rbind (_check_for_tables st) _check_for_tables = _check_for_tables st /\
  expand_context (expand_context (context st)) = expand_context (context st) /\
  (forall ctx add : list Document,
     add_unique (add_unique ctx add) add = add_unique ctx add) /\
  (forall (ctx : list Document) text meta,
     add_unique (mkDocument text meta :: ctx) [mkDocument text meta]
     = mkDocument text meta :: ctx).
Proof.
  pose proof (check_for_tables_ok st) as Hid.
  repeat split.
  - rewrite Hid. simpl. exact Hid.
  - by rewrite !expand_context_id.
  - apply add_unique_idempotent.
  - intros ctx text meta. apply add_unique_present.
    intros c Hc. apply list_elem_of_singleton in Hc. subst. by left.
Qed.

(** ** The claims about the pipeline *)

Import Scenarios.

(** C1, as amended: whenever the search of the retrieval stage returns (the
    index is there, loads, and answers the analysed query),
    [process_question] returns a non-empty string and does not raise. The
    generation stage appends exactly one message, whose content is the
    model's non-empty text verbatim or one of the two fixed texts, and that
    content is what [process_question] returns. *)
Theorem process_question_answer env q mgr st1 ctx mgr' :
  _analyze_query env (initial_state q) = Ok st1 ->
  search env (search_query st1) 3 mgr = (Ok ctx, mgr') ->
  exists answer,
    process_question env q mgr = (Ok answer, mgr') /\
    answer <> "" /\
    _generate_response env (set_context st1 ctx)
      = Ok (append_message (set_context st1 ctx) answer) /\
    messages (append_message (set_context st1 ctx) answer)
      = [mkAIMessage answer] /\
    (answer = apology \/ answer = error_fallback \/
     llm_invoke env (generation_messages q (format_context ctx))
       = Ok (RObject (Some answer))).
Proof.
  intros Han Hsearch.
  destruct (analyze_query_total env (initial_state q)) as [v Hv].
  rewrite Hv in Han. injection Han as <-.
  set (s2 := set_context (set_search_query (initial_state q) v) ctx).
  destruct (generate_response_cases env s2) as (text & Hgen & Hne & Hshape).
  exists text. repeat split; try assumption.
  unfold process_question, workflow_invoke, try_except, bind, lift.
  rewrite Hv, retrieve_context_search, Hsearch.
  rewrite check_for_tables_ok. fold s2. rewrite Hgen.
  reflexivity.
Qed.

Lemma process_question_answer_witness :
  exists answer,
    process_question env_ok raw_question fresh
      = (Ok answer, loaded tariff_index) /\
    answer <> "" /\
    _generate_response env_ok
      (set_context (set_search_query (initial_state raw_question)
                      (JString "anchorage dues cost"))
                   [anchorage_chunk; table_chunk; berth_chunk])
      = Ok (append_message
              (set_context (set_search_query (initial_state raw_question)
                              (JString "anchorage dues cost"))
                           [anchorage_chunk; table_chunk; berth_chunk])
              answer) /\
    messages (append_message
                (set_context (set_search_query (initial_state raw_question)
                                (JString "anchorage dues cost"))
                             [anchorage_chunk; table_chunk; berth_chunk])
                answer) = [mkAIMessage answer] /\
    (answer = apology \/ answer = error_fallback \/
     llm_invoke env_ok
       (generation_messages raw_question
          (format_context [anchorage_chunk; table_chunk; berth_chunk]))
       = Ok (RObject (Some answer))).
Proof.
  apply (process_question_answer env_ok raw_question fresh
           (set_search_query (initial_state raw_question)
              (JString "anchorage dues cost"))
           [anchorage_chunk; table_chunk; berth_chunk] (loaded tariff_index));
    reflexivity.
Defined.

(** C1, as stated, fails: the index is on disk and loads (or is already
    loaded), the similarity search raises, and [process_question] raises
    with it instead of returning a string. *)
Lemma process_question_raises_with_index :
  index_path_exists env_down = true /\
  load_local env_down = Ok down_index /\
  process_question env_down raw_question fresh
    = (Raise unreachable, loaded down_index) /\
  process_question env_down raw_question (loaded down_index)
    = (Raise unreachable, loaded down_index).
Proof. repeat split. Qed.

(** C2: with no index loaded and none on disk, the retrieval stage raises
    the "Vector store not found" error of [load_vector_store], and
    [process_question] raises that very error: no handler on the way
    replaces it, and no answer is produced. *)
Theorem index_absent_propagates env q st mgr :
  vector_store mgr = None ->
  index_path_exists env = false ->
  search env (search_query st) 3 mgr = (Raise IndexNotInitialized, mgr) /\
  _retrieve_context env st mgr = (Raise IndexNotInitialized, mgr) /\
  workflow_invoke env (initial_state q) mgr = (Raise IndexNotInitialized, mgr) /\
  process_question env q mgr = (Raise IndexNotInitialized, mgr).
Proof.
  intros Hnone Hpath.
  assert (Hs : forall v, search env v 3 mgr = (Raise IndexNotInitialized, mgr))
    by (intros v; by apply search_absent).
  assert (Hw : workflow_invoke env (initial_state q) mgr
               = (Raise IndexNotInitialized, mgr)).
  { destruct (analyze_query_total env (initial_state q)) as [v Hv].
    unfold workflow_invoke, bind, lift.
    by rewrite Hv, retrieve_context_search, Hs. }
  repeat split.
  - apply Hs.
  - by rewrite retrieve_context_search, Hs.
  - exact Hw.
  - unfold process_question, try_except, bind. by rewrite Hw.
Qed.

Lemma index_absent_propagates_witness :
  search env_absent (JString raw_question) 3 fresh
    = (Raise IndexNotInitialized, fresh) /\
  _retrieve_context env_absent
    (set_search_query (initial_state raw_question) (JString raw_question))
    fresh = (Raise IndexNotInitialized, fresh) /\
  workflow_invoke env_absent (initial_state raw_question) fresh
    = (Raise IndexNotInitialized, fresh) /\
  process_question env_absent raw_question fresh
    = (Raise IndexNotInitialized, fresh).
Proof.
  apply (index_absent_propagates env_absent raw_question
           (set_search_query (initial_state raw_question)
              (JString raw_question)) fresh); reflexivity.
Defined.

(** C3: when the analysis call raises, or returns content that does not
    decode into an object with a "search_query" member, the analysis stage
    still returns, the search query it leaves is the question itself, and
    the workflow goes on with retrieval from that state. *)
Theorem analysis_fallback env st :
  question st <> "" ->
  analysis_failed env (question st) ->
  _analyze_query env st = Ok (set_search_query st (JString (question st))) /\
  search_query (set_search_query st (JString (question st)))
    = JString (question st) /\
  forall mgr,
    workflow_invoke env st mgr =
    (s2 <- _retrieve_context env
             (set_search_query st (JString (question st))) ;;
     s3 <- lift (_check_for_tables s2) ;;
     lift (_generate_response env s3)) mgr.
Proof.
  intros _ Hfail.
  assert (Han : _analyze_query env st
                = Ok (set_search_query st (JString (question st)))).
  { destruct Hfail as [e He|text Hr Hdec|r Hr Hout].
    - eauto using analyze_query_raise.
    - eapply analyze_query_fallback; eauto using undecodable_has_no_output.
    - eauto using analyze_query_fallback. }
  split; [exact Han|]. split; [reflexivity|].
  intros mgr. unfold workflow_invoke at 1. unfold bind at 1, lift at 1.
  by rewrite Han.
Qed.

Lemma analysis_fallback_witness :
  _analyze_query env_chatty (initial_state raw_question)
    = Ok (set_search_query (initial_state raw_question) (JString raw_question)) /\
  search_query (set_search_query (initial_state raw_question)
                  (JString raw_question)) = JString raw_question /\
  forall mgr,
    workflow_invoke env_chatty (initial_state raw_question) mgr =
    (s2 <- _retrieve_context env_chatty
             (set_search_query (initial_state raw_question)
                (JString raw_question)) ;;
     s3 <- lift (_check_for_tables s2) ;;
     lift (_generate_response env_chatty s3)) mgr.
Proof.
  apply (analysis_fallback env_chatty (initial_state raw_question)).
  - discriminate.
  - apply (content_undecodable env_chatty raw_question chatty_text);
      reflexivity.
Defined.

(** C6: the context left by the retrieval stage holds at most three chunks,
    and a search of any width k >= 1 returns at most k chunks. *)
Theorem retrieval_width env st k mgr st' mgr' :
  1 <= k ->
  _retrieve_context env st mgr = (Ok st', mgr') ->
  length (context st') <= 3 /\
  forall q m ctx m', search env q k m = (Ok ctx, m') -> length ctx <= k.
Proof.
  intros _ Hret. split.
  - rewrite retrieve_context_search in Hret.
    destruct (search env (search_query st) 3 mgr) as [[ctx|e] m] eqn:Hs;
      [|discriminate].
    injection Hret as <- _. simpl. eauto using search_length.
  - intros q m ctx m'. apply search_length.
Qed.

Lemma retrieval_width_witness :
  length (context
            (set_context
               (set_search_query (initial_state raw_question)
                  (JString "anchorage dues cost"))
               [anchorage_chunk; table_chunk; berth_chunk])) <= 3 /\
  forall q m ctx m', search env_ok q 2 m = (Ok ctx, m') -> length ctx <= 2.
Proof.
  apply (retrieval_width env_ok
           (set_search_query (initial_state raw_question)
              (JString "anchorage dues cost"))
           2 fresh
           (set_context
              (set_search_query (initial_state raw_question)
                 (JString "anchorage dues cost"))
              [anchorage_chunk; table_chunk; berth_chunk])
           (loaded tariff_index)).
  - lia.
  - reflexivity.
Defined.

(** C7: when the analysis yields a search query, the analysis stage stores
    it and the retrieval stage searches the index with it: the stage's
    outcome is the outcome of [search], and so of the index's
    [similarity_search], at that very value and width 3. *)
Theorem retrieval_uses_rewritten_query env st r v mgr :
  llm_invoke env (analysis_messages (question st)) = Ok r ->
  structured_output env r = Some v ->
  exists st1,
    _analyze_query env st = Ok st1 /\
    search_query st1 = v /\
    _retrieve_context env st1 mgr =
      match search env v 3 mgr with
      | (Ok ctx, m) => (Ok (set_context st1 ctx), m)
      | (Raise e, m) => (Raise e, m)
      end /\
    forall vs,
      vector_store mgr = Some vs ->
      _retrieve_context env st1 mgr =
        match similarity_search vs v 3 with
        | Ok ctx => (Ok (set_context st1 ctx), mgr)
        | Raise e => (Raise e, mgr)
        end.
Proof.
  intros Hr Hout. exists (set_search_query st v).
  split; [eauto using analyze_query_success|].
  split; [reflexivity|].
  split; [apply retrieve_context_search|].
  intros vs Hvs. rewrite retrieve_context_search. simpl.
  rewrite (search_loaded env v 3 mgr vs Hvs).
  by destruct (similarity_search vs v 3).
Qed.

Lemma retrieval_uses_rewritten_query_witness :
  exists st1,
    _analyze_query env_ok (initial_state raw_question) = Ok st1 /\
    search_query st1 = JString "anchorage dues cost" /\
    _retrieve_context env_ok st1 (loaded tariff_index) =
      match search env_ok (JString "anchorage dues cost") 3
                   (loaded tariff_index) with
      | (Ok ctx, m) => (Ok (set_context st1 ctx), m)
      | (Raise e, m) => (Raise e, m)
      end /\
    forall vs,
      vector_store (loaded tariff_index) = Some vs ->
      _retrieve_context env_ok st1 (loaded tariff_index) =
        match similarity_search vs (JString "anchorage dues cost") 3 with
        | Ok ctx => (Ok (set_context st1 ctx), loaded tariff_index)
        | Raise e => (Raise e, loaded tariff_index)
        end.
Proof.
  apply (retrieval_uses_rewritten_query env_ok (initial_state raw_question)
           (RObject (Some analysis_text)) (JString "anchorage dues cost")
           (loaded tariff_index)); reflexivity.
Defined.

(** Scenario C of the specification: the chunks retrieved are those the
    index ranks first for the rewritten query, not for the raw question. *)
Example scenario_c :
  (s1 <- lift (_analyze_query env_ok (initial_state raw_question)) ;;
   _retrieve_context env_ok s1) fresh
  = (Ok (mkAgentState [] [anchorage_chunk; table_chunk; berth_chunk]
           raw_question (JString "anchorage dues cost")),
     loaded tariff_index) /\
  similarity_search tariff_index (JString raw_question) 3
  = Ok [pilotage_chunk; berth_chunk; table_chunk].
Proof. split; reflexivity. Qed.

(** C8, as amended: a null response, or a response without a content
    attribute, makes the generation stage raise inside its own [try]; its
    handler absorbs the error, appends the fixed error text as the answer
    and returns the state. Nothing reaches the caller as an exception. *)
Theorem invalid_response_absorbed env st r :
  llm_invoke env (generation_messages (question st)
                    (format_context (context st))) = Ok r ->
  r = RNone \/ r = RObject None ->
  _generate_response env st = Ok (append_message st error_fallback).
Proof.
  intros Hr Hcase. eapply generate_response_invalid; [exact Hr|].
  by destruct Hcase as [-> | ->].
Qed.

Lemma invalid_response_absorbed_witness :
  _generate_response env_null_response (initial_state raw_question)
  = Ok (append_message (initial_state raw_question) error_fallback).
Proof.
  apply (invalid_response_absorbed env_null_response
           (initial_state raw_question) RNone).
  - reflexivity.
  - left. reflexivity.
Defined.

(** C8, as stated, fails: the model hands back no response object, yet the
    generation stage returns normally and [process_question] returns the
    fixed error text instead of raising. *)
Lemma null_response_not_fatal :
  llm_invoke env_null_response
    (generation_messages raw_question
       (format_context [anchorage_chunk; table_chunk; berth_chunk]))
    = Ok RNone /\
  _generate_response env_null_response
    (mkAgentState [] [anchorage_chunk; table_chunk; berth_chunk]
       raw_question (JString "anchorage dues cost"))
    = Ok (mkAgentState [mkAIMessage error_fallback]
            [anchorage_chunk; table_chunk; berth_chunk]
            raw_question (JString "anchorage dues cost")) /\
  process_question env_null_response raw_question fresh
    = (Ok error_fallback, loaded tariff_index).
Proof. repeat split. Qed.

(** C9: when the model is reached and its response has the empty string as
    content, the generation stage answers with the fixed apology, which is
    not the empty string. *)
Theorem empty_content_yields_apology env st :
  dump_context env (question st) (context st) = Ok tt ->
  llm_invoke env (generation_messages (question st)
                    (format_context (context st)))
    = Ok (RObject (Some "")) ->
  _generate_response env st = Ok (append_message st apology) /\
  last (messages (append_message st apology)) = Some (mkAIMessage apology) /\
  apology <> "".
Proof.
  intros Hdump Hr. split; [|split].
  - by rewrite (generate_response_content env st "" Hdump Hr).
  - unfold append_message. simpl. apply last_snoc.
  - apply apology_nonempty.
Qed.

Lemma empty_content_yields_apology_witness :
  _generate_response env_empty_content (initial_state raw_question)
    = Ok (append_message (initial_state raw_question) apology) /\
  last (messages (append_message (initial_state raw_question) apology))
    = Some (mkAIMessage apology) /\
  apology <> "".
Proof.
  apply (empty_content_yields_apology env_empty_content
           (initial_state raw_question)); reflexivity.
Defined.

(** C10, as amended: for a non-empty question the analysis stage always
    returns and only writes the search query. When the analysis failed the
    query is the question verbatim, hence a non-empty string. When it
    succeeded the query is the value of the model's "search_query" member,
    unchanged and unchecked. *)
Theorem search_query_after_analysis env st :
  question st <> "" ->
  exists v,
    _analyze_query env st = Ok (set_search_query st v) /\
    ((analysis_failed env (question st) /\
      v = JString (question st) /\ nonempty_string v) \/
     (exists r,
        llm_invoke env (analysis_messages (question st)) = Ok r /\
        structured_output env r = Some v)).
Proof.
  intros Hq.
  destruct (llm_invoke env (analysis_messages (question st))) as [r|e] eqn:Hr.
  - destruct (structured_output env r) as [v|] eqn:Hout.
    + exists v. split; [eauto using analyze_query_success|]. right. eauto.
    + exists (JString (question st)).
      split; [eauto using analyze_query_fallback|]. left.
      split; [eapply output_unstructured; eauto|].
      split; [reflexivity|]. by exists (question st).
  - exists (JString (question st)).
    split; [eauto using analyze_query_raise|]. left.
    split; [eapply model_raised; eauto|].
    split; [reflexivity|]. by exists (question st).
Qed.

Lemma search_query_after_analysis_witness :
  exists v,
    _analyze_query env_chatty (initial_state raw_question)
      = Ok (set_search_query (initial_state raw_question) v) /\
    ((analysis_failed env_chatty (question (initial_state raw_question)) /\
      v = JString (question (initial_state raw_question)) /\
      nonempty_string v) \/
     (exists r,
        llm_invoke env_chatty
          (analysis_messages (question (initial_state raw_question))) = Ok r /\
        structured_output env_chatty r = Some v)).
Proof.
  apply (search_query_after_analysis env_chatty (initial_state raw_question)).
  discriminate.
Defined.

(** C10, as stated, fails: the question is not empty, the model's
    structured answer decodes and carries an empty "search_query", and the
    analysis stage stores that empty string. *)
Lemma analysis_can_leave_empty_query :
  raw_question <> "" /\
  structured_output env_empty_query (RObject (Some empty_query_text))
    = Some (JString "") /\
  _analyze_query env_empty_query (initial_state raw_question)
    = Ok (mkAgentState [] [] raw_question (JString "")) /\
  ~ nonempty_string (JString "").
Proof.
  split; [discriminate|]. split; [reflexivity|]. split; [reflexivity|].
  intros (s & Hs & Hne). injection Hs as <-. by apply Hne.
Qed.

(** * Further properties of the code *)

(** ** The table marker *)

Section Marker.

Lemma lower_app a b : lower (a +:+ b) = lower a +:+ lower b.
Proof. induction a as [|c a IH]; simpl; [done|]. by rewrite IH. Qed.

Lemma lower_split s x y :
  lower s = x +:+ y ->
  exists a b, s = a +:+ b /\ lower a = x /\ lower b = y.
Proof.
  revert s. induction x as [|c x IH]; intros s H.
  - exists "", s. by simpl in *.
  - destruct s as [|d s]; simpl in H; [discriminate|].
    injection H as Hc Hs. destruct (IH s Hs) as (a & b & -> & Ha & Hb).
    exists (String d a), b. simpl. by rewrite Hc, Ha, Hb.
Qed.

Lemma prefix_intro n b : String.prefix n (n +:+ b) = true.
Proof.
  induction n as [|c n IH]; simpl; [by destruct b|].
  by destruct (Ascii.ascii_dec c c).
Qed.

Lemma prefix_inv n h : String.prefix n h = true -> exists b, h = n +:+ b.
Proof.
  revert h. induction n as [|c n IH]; intros h H.
  - by exists h.
  - destruct h as [|d h]; simpl in H; [discriminate|].
    destruct (Ascii.ascii_dec c d) as [->|]; [|discriminate].
    destruct (IH h H) as [b ->]. by exists b.
Qed.

Lemma contains_prefix n h : String.prefix n h = true -> contains n h = true.
Proof. intros H. destruct h; cbn [contains]; by rewrite H. Qed.

Lemma contains_intro a n b : contains n (a +:+ n +:+ b) = true.
Proof.
  induction a as [|c a IH].
  - change ("" +:+ n +:+ b) with (n +:+ b).
    apply contains_prefix, prefix_intro.
  - change (String c a +:+ n +:+ b) with (String c (a +:+ n +:+ b)).
    cbn [contains]. rewrite IH. apply orb_true_r.
Qed.

Lemma contains_inv n h :
  contains n h = true -> exists a b, h = a +:+ n +:+ b.
Proof.
  induction h as [|c h IH]; cbn [contains]; intros H.
  - rewrite orb_false_r in H. destruct (prefix_inv _ _ H) as [b Hb].
    by exists "", b.
  - apply orb_true_iff in H as [H|H].
    + destruct (prefix_inv _ _ H) as [b Hb]. by exists "", b.
    + destruct (IH H) as (a & b & ->). by exists (String c a), b.
Qed.

End Marker.

(** X1: a chunk carries the table marker exactly when its text contains the
    word "table" in some mix of upper and lower case letters, anywhere, also
    inside a longer word. *)
Theorem marker_any_case (chunk : Document) :
  has_table chunk <->
  exists a t b, page_content chunk = a +:+ t +:+ b /\ lower t = "table".
Proof.
  unfold has_table. split.
  - intros H. apply contains_inv in H as (x & y & H).
    apply lower_split in H as (a & rest & Hpc & Ha & Hrest).
    apply lower_split in Hrest as (t & b & -> & Ht & Hb).
    by exists a, t, b.
  - intros (a & t & b & -> & Ht).
    rewrite !lower_app, Ht. apply contains_intro.
Qed.

(** ** Candidates of the expansion *)

Section Candidates.

Implicit Types (ctx add : list Document) (c chunk : Document).

Lemma elem_of_fold_extend ctx (l acc : list Document) c :
  c ∈ fold_left (fun additional_context chunk =>
                   additional_context ++ find_table_reference chunk ctx) l acc
  <-> c ∈ acc \/ exists chunk, chunk ∈ l /\ c ∈ find_table_reference chunk ctx.
Proof.
  revert acc. induction l as [|x l IH]; simpl; intros acc.
  - split; [auto|]. intros [H|(chunk & H & _)]; [done|inversion H].
  - rewrite IH, elem_of_app. split.
    + intros [[H|H]|(chunk & Hin & H)]; [by left| |].
      * right. exists x. split; [left|done].
      * right. exists chunk. split; [by right|done].
    + intros [H|(chunk & Hin & H)]; [by left; left|].
      apply elem_of_cons in Hin as [->|Hin]; [by left; right|].
      right. by exists chunk.
Qed.

End Candidates.

(** X2: [find_table_reference] returns, in their order in [all_chunks], the
    chunks that carry the marker and differ from the given chunk, and only
    when the given chunk carries the marker itself; it never returns the
    chunk it was asked about. *)
Theorem find_table_reference_spec (chunk : Document)
    (all_chunks : list Document) :
  (find_table_reference chunk all_chunks `sublist_of` all_chunks) /\
  (chunk ∉ find_table_reference chunk all_chunks) /\
  forall c, c ∈ find_table_reference chunk all_chunks <->
            has_table chunk /\ c ∈ all_chunks /\ c <> chunk /\ has_table c.
Proof.
  assert (Hiff : forall c, c ∈ find_table_reference chunk all_chunks <->
            has_table chunk /\ c ∈ all_chunks /\ c <> chunk /\ has_table c).
  { intros c. unfold find_table_reference. case_decide.
    - rewrite list_elem_of_filter. tauto.
    - split; [intros Hc; inversion Hc|tauto]. }
  split; [|split; [|exact Hiff]].
  - unfold find_table_reference. case_decide.
    + apply sublist_filter.
    + apply sublist_nil_l.
  - intros Hin. apply Hiff in Hin. tauto.
Qed.

(** X3: the candidates collected by [_check_for_tables] are exactly the
    marked chunks of the context for which the context holds another,
    different marked chunk. *)
Theorem collect_table_refs_spec (ctx : list Document) (c : Document) :
  c ∈ collect_table_refs ctx <->
  c ∈ ctx /\ has_table c /\
  exists other, other ∈ ctx /\ other <> c /\ has_table other.
Proof.
  unfold collect_table_refs. rewrite elem_of_fold_extend.
  split.
  - intros [H|(chunk & Hin & H)]; [inversion H|].
    unfold find_table_reference in H. case_decide; [|inversion H].
    apply list_elem_of_filter in H as [[Hne Hc] Hcin].
    split; [done|]. split; [done|]. exists chunk. auto.
  - intros (Hin & Hc & other & Hoin & Hne & Ho). right. exists other.
    split; [done|]. unfold find_table_reference.
    rewrite decide_True by done. apply list_elem_of_filter. auto.
Qed.

(** ** The dedup loop *)

Section Dedup.

Implicit Types (ctx add : list Document) (c : Document).

Lemma add_unique_elem ctx add c :
  c ∈ add_unique ctx add <-> c ∈ ctx \/ c ∈ add.
Proof.
  split.
  - revert ctx. induction add as [|x add IH]; intros ctx H; [by left|].
    rewrite add_unique_cons in H. apply IH in H as [H|H]; [|right; by right].
    case_decide; [by left|].
    apply elem_of_app in H as [H|H]; [by left|].
    apply list_elem_of_singleton in H as ->. right. left.
  - intros [H|H]; [by apply add_unique_keeps|by apply add_unique_covers].
Qed.

Lemma add_unique_prefix ctx add : ctx `prefix_of` add_unique ctx add.
Proof.
  revert ctx. induction add as [|x add IH]; intros ctx; [done|].
  rewrite add_unique_cons. case_decide; [apply IH|].
  etrans; [|apply IH]. by apply prefix_app_r.
Qed.

Lemma add_unique_length ctx add :
  length ctx <= length (add_unique ctx add) <= length ctx + length add.
Proof.
  revert ctx. induction add as [|x add IH]; intros ctx; [simpl; lia|].
  rewrite add_unique_cons. specialize (IH (if decide (x ∈ ctx) then ctx
                                           else ctx ++ [x])).
  case_decide; simpl; [lia|]. rewrite length_app in IH. simpl in IH. lia.
Qed.

End Dedup.

(** X4: the dedup loop keeps the context as a prefix of its result, adds
    nothing but candidates, leaves every candidate present, and grows the
    context by at most the number of candidates. *)
Theorem add_unique_extends (ctx add : list Document) :
  (ctx `prefix_of` add_unique ctx add) /\
  (forall c, c ∈ add_unique ctx add <-> c ∈ ctx \/ c ∈ add) /\
  length ctx <= length (add_unique ctx add) <= length ctx + length add.
Proof.
  split; [apply add_unique_prefix|].
  split; [intros c; apply add_unique_elem|apply add_unique_length].
Qed.

(** X5: the dedup loop adds no duplicate: from a context without repeated
    chunks it yields a context without repeated chunks, also when the
    candidate list repeats a chunk. *)
Theorem add_unique_no_duplicates (ctx add : list Document) :
  NoDup ctx -> NoDup (add_unique ctx add).
Proof.
  revert ctx. induction add as [|x add IH]; intros ctx Hnd; [done|].
  rewrite add_unique_cons. apply IH. case_decide; [done|].
  apply NoDup_app. split; [done|]. split; [|apply NoDup_singleton].
  intros y Hy Hyx. apply list_elem_of_singleton in Hyx. by subst.
Qed.

Lemma add_unique_no_duplicates_witness :
  NoDup (add_unique [Scenarios.anchorage_chunk]
           [Scenarios.table_chunk; Scenarios.table_chunk;
            Scenarios.anchorage_chunk]).
Proof.
  apply (add_unique_no_duplicates [Scenarios.anchorage_chunk]
           [Scenarios.table_chunk; Scenarios.table_chunk;
            Scenarios.anchorage_chunk]).
  apply NoDup_singleton.
Defined.

(** ** Outcomes of [process_question] *)

Section Outcomes.

Context (env : Collaborators).

Lemma analyzed_fields q st1 :
  _analyze_query env (initial_state q) = Ok st1 ->
  question st1 = q /\ messages st1 = [] /\ context st1 = [].
Proof.
  destruct (analyze_query_total env (initial_state q)) as [v Hv].
  rewrite Hv. by intros [= <-].
Qed.

Lemma process_question_generated q mgr st1 ctx mgr' text :
  _analyze_query env (initial_state q) = Ok st1 ->
  search env (search_query st1) 3 mgr = (Ok ctx, mgr') ->
  _generate_response env (set_context st1 ctx)
    = Ok (append_message (set_context st1 ctx) text) ->
  process_question env q mgr = (Ok text, mgr').
Proof.
  intros Han Hs Hgen.
  unfold process_question, workflow_invoke, try_except, bind, lift.
  rewrite Han, retrieve_context_search, Hs, check_for_tables_ok, Hgen.
  unfold append_message. cbn [messages set_messages].
  by rewrite last_snoc.
Qed.

Lemma process_question_search_raises q mgr st1 e mgr' :
  _analyze_query env (initial_state q) = Ok st1 ->
  search env (search_query st1) 3 mgr = (Raise e, mgr') ->
  process_question env q mgr = (Raise e, mgr').
Proof.
  intros Han Hs.
  unfold process_question, workflow_invoke, try_except, bind, lift.
  by rewrite Han, retrieve_context_search, Hs.
Qed.

Lemma search_ok_loaded q k mgr ctx mgr' :
  search env q k mgr = (Ok ctx, mgr') ->
  exists vs, vector_store mgr' = Some vs.
Proof.
  unfold search, bind, try_except, get_store, lift, raise, ret.
  destruct (match vector_store mgr with
            | Some _ => _ | None => _ end) as [[[]|e] m]; [|discriminate].
  destruct (vector_store m) as [vs|] eqn:Hm; [|discriminate].
  destruct (similarity_search vs q k); [|discriminate].
  intros [= _ <-]. eauto.
Qed.

Lemma search_load_fails q k mgr e :
  vector_store mgr = None ->
  index_path_exists env = true -> load_local env = Raise e ->
  search env q k mgr = (Raise e, mgr).
Proof.
  intros Hnone Hpath Hload.
  unfold search, load_vector_store.
  unfold bind, try_except, get_store, lift, raise, ret.
  rewrite Hnone. simpl. by rewrite Hpath, Hload.
Qed.

End Outcomes.

Import MoreScenarios.

(** X6: when retrieval returned and the chat model raises on the generation
    call, [process_question] does not raise: it returns the fixed error
    text. *)
Theorem generation_error_contained env q mgr st1 ctx mgr' e :
  _analyze_query env (initial_state q) = Ok st1 ->
  search env (search_query st1) 3 mgr = (Ok ctx, mgr') ->
  llm_invoke env (generation_messages q (format_context ctx)) = Raise e ->
  process_question env q mgr = (Ok error_fallback, mgr').
Proof.
  intros Han Hs Hllm.
  destruct (analyzed_fields env q st1 Han) as (Hq & _ & _).
  eapply process_question_generated; eauto.
  unfold _generate_response. cbn [question context set_context].
  rewrite Hq.
  destruct (dump_context env q ctx) as [[]|]; [|reflexivity].
  simpl. by rewrite Hllm.
Qed.

Lemma generation_error_contained_witness :
  process_question env_model_down raw_question fresh
  = (Ok error_fallback, loaded tariff_index).
Proof.
  apply (generation_error_contained env_model_down raw_question fresh
           analysed top3 (loaded tariff_index) timed_out); reflexivity.
Defined.

(** X7: when the dump of the context to temp_context.txt fails, the answer
    is the fixed error text whatever the chat model would have said: the
    failure happens before the model is called. *)
Theorem dump_failure_yields_fallback env q mgr st1 ctx mgr' e :
  _analyze_query env (initial_state q) = Ok st1 ->
  search env (search_query st1) 3 mgr = (Ok ctx, mgr') ->
  dump_context env q ctx = Raise e ->
  process_question env q mgr = (Ok error_fallback, mgr').
Proof.
  intros Han Hs Hdump.
  destruct (analyzed_fields env q st1 Han) as (Hq & _ & _).
  eapply process_question_generated; eauto.
  unfold _generate_response. cbn [question context set_context].
  by rewrite Hq, Hdump.
Qed.

Lemma dump_failure_yields_fallback_witness :
  process_question env_read_only raw_question fresh
  = (Ok error_fallback, loaded tariff_index).
Proof.
  apply (dump_failure_yields_fallback env_read_only raw_question fresh
           analysed top3 (loaded tariff_index) read_only); reflexivity.
Defined.

(** X8: when retrieval returned, the dump succeeded and the chat model
    answers with non-empty text, [process_question] returns that text
    unchanged. *)
Theorem model_text_returned_verbatim env q mgr st1 ctx mgr' text :
  _analyze_query env (initial_state q) = Ok st1 ->
  search env (search_query st1) 3 mgr = (Ok ctx, mgr') ->
  dump_context env q ctx = Ok tt ->
  llm_invoke env (generation_messages q (format_context ctx))
    = Ok (RObject (Some text)) ->
  text <> "" ->
  process_question env q mgr = (Ok text, mgr').
Proof.
  intros Han Hs Hdump Hllm Hne.
  destruct (analyzed_fields env q st1 Han) as (Hq & _ & _).
  eapply process_question_generated; eauto.
  rewrite (generate_response_content env (set_context st1 ctx) text).
  - by destruct text.
  - cbn [question context set_context]. by rewrite Hq.
  - cbn [question context set_context]. by rewrite Hq.
Qed.

Lemma model_text_returned_verbatim_witness :
  process_question env_ok raw_question fresh
  = (Ok answer_text, loaded tariff_index).
Proof.
  apply (model_text_returned_verbatim env_ok raw_question fresh
           analysed top3 (loaded tariff_index) answer_text);
    solve [reflexivity | discriminate].
Defined.

(** X9: whatever exception the search of the retrieval stage raises,
    [process_question] raises that same exception; no later stage runs and
    no handler replaces it. *)
Theorem retrieval_error_propagates env q mgr st1 e mgr' :
  _analyze_query env (initial_state q) = Ok st1 ->
  search env (search_query st1) 3 mgr = (Raise e, mgr') ->
  _retrieve_context env st1 mgr = (Raise e, mgr') /\
  process_question env q mgr = (Raise e, mgr').
Proof.
  intros Han Hs. split.
  - by rewrite retrieve_context_search, Hs.
  - eauto using process_question_search_raises.
Qed.

Lemma retrieval_error_propagates_witness :
  _retrieve_context env_down analysed fresh
    = (Raise unreachable, loaded down_index) /\
  process_question env_down raw_question fresh
    = (Raise unreachable, loaded down_index).
Proof.
  apply (retrieval_error_propagates env_down raw_question fresh analysed
           unreachable (loaded down_index)); reflexivity.
Defined.

(** X10: the index is loaded once. After a question was answered the
    manager holds the index, and every later search is served from it
    without looking at the disk, whatever the disk then holds. *)
Theorem index_loaded_once env q mgr answer mgr' :
  process_question env q mgr = (Ok answer, mgr') ->
  exists vs,
    vector_store mgr' = Some vs /\
    forall env' query k,
      search env' query k mgr' = (similarity_search vs query k, mgr').
Proof.
  intros Hpq.
  destruct (analyze_query_total env (initial_state q)) as [v Hv].
  destruct (search env (search_query (set_search_query (initial_state q) v))
              3 mgr) as [[ctx|e] m] eqn:Hs.
  - destruct (generate_response_cases env
                (set_context (set_search_query (initial_state q) v) ctx))
      as (text & Hgen & _).
    rewrite (process_question_generated env q mgr _ ctx m text Hv Hs Hgen)
      in Hpq.
    injection Hpq as _ <-.
    destruct (search_ok_loaded env _ _ _ _ _ Hs) as [vs Hvs].
    exists vs. split; [done|]. intros env' query k.
    by apply search_loaded.
  - rewrite (process_question_search_raises env q mgr _ e m Hv Hs) in Hpq.
    discriminate.
Qed.

Lemma index_loaded_once_witness :
  exists vs,
    vector_store (loaded tariff_index) = Some vs /\
    forall env' query k,
      search env' query k (loaded tariff_index)
      = (similarity_search vs query k, loaded tariff_index).
Proof.
  apply (index_loaded_once env_ok raw_question fresh answer_text
           (loaded tariff_index)).
  reflexivity.
Defined.

(** X11: when the index directory exists and loading it raises, the search
    and [process_question] raise that exception and the manager stays
    without an index, so the next question tries to load again. *)
Theorem load_failure_propagates env q mgr e :
  vector_store mgr = None ->
  index_path_exists env = true ->
  load_local env = Raise e ->
  (forall query k, search env query k mgr = (Raise e, mgr)) /\
  process_question env q mgr = (Raise e, mgr).
Proof.
  intros Hnone Hpath Hload.
  assert (Hs : forall query k, search env query k mgr = (Raise e, mgr))
    by (intros; by apply search_load_fails).
  split; [exact Hs|].
  destruct (analyze_query_total env (initial_state q)) as [v Hv].
  eapply process_question_search_raises; eauto.
Qed.

Lemma load_failure_propagates_witness :
  (forall query k, search env_corrupt query k fresh = (Raise corrupt, fresh)) /\
  process_question env_corrupt raw_question fresh = (Raise corrupt, fresh).
Proof.
  apply (load_failure_propagates env_corrupt raw_question fresh corrupt);
    reflexivity.
Defined.

(** ** Conversion of a PDF to markdown *)

Section Join.

Lemma split_on_cons sep s : exists first others, split_on sep s = first :: others.
Proof.
  induction s as [|c s (first & others & IH)]; simpl; [eauto|].
  case_decide; [eauto|]. rewrite IH. eauto.
Qed.

Lemma join_push c sep first others :
  join sep (String c first :: others) = String c (join sep (first :: others)).
Proof. by destruct others. Qed.

Lemma join_empty_first c first others :
  join (String c EmptyString) (EmptyString :: first :: others)
  = String c (join (String c EmptyString) (first :: others)).
Proof. reflexivity. Qed.

(** Joining what [split] returned gives the text back. *)
Lemma join_split_on sep s :
  join (String sep EmptyString) (split_on sep s) = s.
Proof.
  induction s as [|c s IH]; [done|].
  destruct (split_on_cons sep s) as (first & others & Hs).
  cbn [split_on]. rewrite Hs in *. case_decide.
  - subst c. by rewrite join_empty_first, IH.
  - by rewrite join_push, IH.
Qed.

Lemma join_cons sep x l :
  l <> [] -> join sep (x :: l) = x +:+ sep +:+ join sep l.
Proof. by destruct l. Qed.

Lemma append_assoc (a b c : string) : (a +:+ b) +:+ c = a +:+ (b +:+ c).
Proof.
  induction a as [|x a IH]; [done|].
  change (String x ((a +:+ b) +:+ c) = String x (a +:+ b +:+ c)).
  by f_equal.
Qed.

Lemma join_app sep l1 l2 :
  l1 <> [] -> l2 <> [] ->
  join sep (l1 ++ l2) = join sep l1 +:+ sep +:+ join sep l2.
Proof.
  intros H1 H2. induction l1 as [|x l1 IH]; [done|].
  destruct l1 as [|y l1].
  - simpl. by apply join_cons.
  - change ((x :: y :: l1) ++ l2) with (x :: ((y :: l1) ++ l2)).
    rewrite !join_cons by done. rewrite IH by done.
    by rewrite !append_assoc.
Qed.

Lemma join_snoc sep l x :
  l <> [] -> join sep (l ++ [x]) = join sep l +:+ sep +:+ x.
Proof. intros H. by rewrite join_app. Qed.

End Join.

Section Convert.

Context (io : Ingestion).

Lemma render_page_nonempty text : render_page io text <> [].
Proof. unfold render_page. by destruct (map _ _). Qed.

Lemma join_render_page text :
  join nl (render_page io text) = page_markdown io text.
Proof.
  unfold render_page, page_markdown. rewrite join_snoc.
  - done.
  - destruct (split_on_cons newline text) as (f & o & ->). done.
Qed.

Lemma render_pages_ok texts acc :
  render_pages io (map Ok texts) acc
  = Ok (acc ++ concat (map (render_page io) texts)).
Proof.
  revert acc. induction texts as [|t texts IH]; intros acc; simpl.
  - by rewrite app_nil_r.
  - rewrite IH. by rewrite <- app_assoc.
Qed.

Lemma render_pages_fails texts e rest acc :
  render_pages io (map Ok texts ++ Raise e :: rest) acc = Raise e.
Proof.
  revert acc. induction texts as [|t texts IH]; intros acc; simpl; [done|].
  apply IH.
Qed.

Lemma join_pages texts :
  join nl (concat (map (render_page io) texts))
  = join nl (map (page_markdown io) texts).
Proof.
  induction texts as [|t texts IH]; [done|].
  destruct texts as [|t' texts].
  - simpl. rewrite app_nil_r. apply join_render_page.
  - change (concat (map (render_page io) (t :: t' :: texts)))
      with (render_page io t ++ concat (map (render_page io) (t' :: texts))).
    rewrite join_app.
    + rewrite IH, join_render_page.
      change (map (page_markdown io) (t :: t' :: texts))
        with (page_markdown io t :: map (page_markdown io) (t' :: texts)).
      by rewrite join_cons.
    + apply render_page_nonempty.
    + simpl. pose proof (render_page_nonempty t').
      by destruct (render_page io t').
Qed.

Lemma page_markdown_plain text :
  Forall (fun line => is_heading io line = false) (split_on newline text) ->
  page_markdown io text = text +:+ nl +:+ nl +:+ nl.
Proof.
  intros Hplain. unfold page_markdown.
  assert (Hmap : map (render_line io) (split_on newline text)
                 = split_on newline text).
  { induction Hplain as [|line l Hline _ IH]; simpl; [done|].
    unfold render_line at 1. by rewrite Hline, IH. }
  rewrite Hmap. pose proof (join_split_on newline text) as Hjoin.
  change (String newline EmptyString) with nl in Hjoin. by rewrite Hjoin.
Qed.

End Convert.

Import IngestScenarios.

(** X12: when every page of a PDF yields its text, the markdown is made page
    by page: the lines of a page in order, an upper-case line shorter than
    100 characters turned into a "# " heading and every other line kept,
    then three newlines; the pages are joined by one more newline. A page
    without such a line keeps its text unchanged. *)
Theorem convert_page_by_page io pdf_path texts :
  pdf_reader io pdf_path = Ok (map Ok texts) ->
  convert_pdf_to_markdown io pdf_path
    = Ok (join nl (map (page_markdown io) texts)) /\
  forall text,
    Forall (fun line => is_heading io line = false) (split_on newline text) ->
    page_markdown io text = text +:+ nl +:+ nl +:+ nl.
Proof.
  intros Hread. split; [|apply page_markdown_plain].
  unfold convert_pdf_to_markdown. rewrite Hread. simpl.
  rewrite render_pages_ok. simpl. by rewrite join_pages.
Qed.

Lemma convert_page_by_page_witness :
  convert_pdf_to_markdown io_ok "tariff.pdf"
    = Ok (join nl (map (page_markdown io_ok) [page1; page2])) /\
  forall text,
    Forall (fun line => is_heading io_ok line = false)
           (split_on newline text) ->
    page_markdown io_ok text = text +:+ nl +:+ nl +:+ nl.
Proof.
  apply (convert_page_by_page io_ok "tariff.pdf" [page1; page2]).
  reflexivity.
Defined.

(** X13: a PDF that cannot be opened, or one of whose pages cannot be
    extracted, makes the conversion raise that error; no markdown of the
    pages before the failing one is returned. *)
Theorem convert_failure_propagates io pdf_path e :
  pdf_reader io pdf_path = Raise e \/
  (exists texts rest,
     pdf_reader io pdf_path = Ok (map Ok texts ++ Raise e :: rest)) ->
  convert_pdf_to_markdown io pdf_path = Raise e /\
  process_file io pdf_path = Raise e.
Proof.
  intros H.
  assert (Hc : convert_pdf_to_markdown io pdf_path = Raise e).
  { unfold convert_pdf_to_markdown.
    destruct H as [->|(texts & rest & ->)]; simpl; [done|].
    by rewrite render_pages_fails. }
  split; [exact Hc|]. unfold process_file. by rewrite Hc.
Qed.

Lemma convert_failure_propagates_witness :
  convert_pdf_to_markdown io_ok "scan.pdf" = Raise undecodable /\
  process_file io_ok "scan.pdf" = Raise undecodable.
Proof.
  apply (convert_failure_propagates io_ok "scan.pdf" undecodable).
  right. exists [page2], []. reflexivity.
Defined.

(** ** Processing the documents *)

Section Process.

Context (io : Ingestion).

Lemma process_files_concat files acc :
  process_files io files acc = acc ++ concat (map (chunks_of io) files).
Proof.
  unfold process_files. revert acc.
  induction files as [|f files IH]; intros acc; simpl.
  - by rewrite app_nil_r.
  - rewrite IH. unfold chunks_of at 2.
    destruct (process_file io f); [by rewrite <- app_assoc|].
    by rewrite app_nil_l.
Qed.

Lemma elem_of_concat_map (f : string -> list Document) files c :
  c ∈ concat (map f files) -> exists file, file ∈ files /\ c ∈ f file.
Proof.
  induction files as [|x files IH]; simpl; intros Hc; [inversion Hc|].
  apply elem_of_app in Hc as [Hc|Hc].
  - exists x. split; [left|done].
  - destruct (IH Hc) as (file & Hin & Hfile). exists file.
    split; [by right|done].
Qed.

Lemma process_file_chunk f chunks c :
  process_file io f = Ok chunks -> c ∈ chunks ->
  exists markdown split c0,
    convert_pdf_to_markdown io f = Ok markdown /\
    split_text io markdown = Ok split /\
    c0 ∈ split /\ c = set_source f c0.
Proof.
  unfold process_file.
  destruct (convert_pdf_to_markdown io f) as [markdown|] eqn:Hconv;
    [|discriminate].
  simpl. destruct (split_text io markdown) as [split|] eqn:Hsplit;
    [|discriminate].
  simpl. intros [= <-] Hc. apply list_elem_of_fmap in Hc as (c0 & -> & Hc0).
  by exists markdown, split, c0.
Qed.

End Process.

(** X14: a PDF whose conversion or splitting raises is skipped: the chunks
    returned are those of the other files, in the order of the files, as if
    the failing file were not in the directory. *)
Theorem failing_pdf_is_skipped io before_files pdf_file after_files e :
  process_file io pdf_file = Raise e ->
  process_files io (before_files ++ pdf_file :: after_files) []
  = process_files io (before_files ++ after_files) [] /\
  process_files io (before_files ++ after_files) []
  = process_files io before_files [] ++ process_files io after_files [].
Proof.
  intros Hfail. rewrite !process_files_concat. simpl.
  rewrite !map_app, !concat_app. simpl.
  unfold chunks_of at 2. by rewrite Hfail.
Qed.

Lemma failing_pdf_is_skipped_witness :
  process_files io_ok (["tariff.pdf"] ++ "scan.pdf" :: ["pilotage.pdf"]) []
  = process_files io_ok (["tariff.pdf"] ++ ["pilotage.pdf"]) [] /\
  process_files io_ok (["tariff.pdf"] ++ ["pilotage.pdf"]) []
  = process_files io_ok ["tariff.pdf"] []
    ++ process_files io_ok ["pilotage.pdf"] [].
Proof.
  apply (failing_pdf_is_skipped io_ok ["tariff.pdf"] "scan.pdf"
           ["pilotage.pdf"] undecodable).
  reflexivity.
Defined.

(** X15: every chunk returned by [process_documents] comes from the
    splitter's output for one PDF of the directory and differs from it only
    in its "source" entry, which names that PDF: the text and every other
    entry of the metadata are the splitter's. *)
Theorem chunks_carry_their_source io (c : Document) :
  c ∈ process_documents io ->
  exists pdf_file markdown split c0,
    pdf_file ∈ glob_pdf io /\
    convert_pdf_to_markdown io pdf_file = Ok markdown /\
    split_text io markdown = Ok split /\
    c0 ∈ split /\
    page_content c = page_content c0 /\
    metadata c !! "source" = Some pdf_file /\
    forall key, key <> "source" -> metadata c !! key = metadata c0 !! key.
Proof.
  unfold process_documents. rewrite process_files_concat, app_nil_l.
  intros Hc. apply elem_of_concat_map in Hc as (f & Hf & Hc).
  unfold chunks_of in Hc.
  destruct (process_file io f) as [chunks|] eqn:Hpf; [|inversion Hc].
  destruct (process_file_chunk io f chunks c Hpf Hc)
    as (markdown & split & c0 & Hconv & Hsplit & Hc0 & ->).
  exists f, markdown, split, c0. repeat split; try done.
  - simpl. apply lookup_insert_eq.
  - intros key Hkey. simpl. by apply lookup_insert_ne.
Qed.

Lemma chunks_carry_their_source_witness :
  exists pdf_file markdown split c0,
    pdf_file ∈ glob_pdf io_ok /\
    convert_pdf_to_markdown io_ok pdf_file = Ok markdown /\
    split_text io_ok markdown = Ok split /\
    c0 ∈ split /\
    page_content (set_source "pilotage.pdf"
                    (mkDocument (page_markdown io_ok plain_page) ∅))
      = page_content c0 /\
    metadata (set_source "pilotage.pdf"
                (mkDocument (page_markdown io_ok plain_page) ∅))
      !! "source" = Some pdf_file /\
    forall key, key <> "source" ->
      metadata (set_source "pilotage.pdf"
                  (mkDocument (page_markdown io_ok plain_page) ∅)) !! key
      = metadata c0 !! key.
Proof.
  apply (chunks_carry_their_source io_ok).
  vm_compute. right. left.
Defined.

(** ** Building and saving the index *)

Section Build.

Context (io : Ingestion).

Lemma create_vector_store_ok chunks vs w :
  from_documents io chunks = Ok vs ->
  save_local io vs = Ok tt ->
  create_vector_store io chunks w
  = (Ok tt, mkWorld (mkManager (Some vs)) (Some (Some vs))).
Proof.
  intros Hbuild Hsave.
  unfold create_vector_store, wtry, wbind, wlift, set_manager, set_store_dir.
  rewrite Hbuild. simpl. by rewrite Hsave.
Qed.

Lemma create_vector_store_build_fails chunks e w :
  from_documents io chunks = Raise e ->
  create_vector_store io chunks w = (Raise e, w).
Proof.
  intros Hbuild.
  unfold create_vector_store, wtry, wbind, wlift. by rewrite Hbuild.
Qed.

Lemma create_vector_store_save_fails chunks vs e w :
  from_documents io chunks = Ok vs ->
  save_local io vs = Raise e ->
  create_vector_store io chunks w
  = (Raise e, mkWorld (mkManager (Some vs)) (store_dir w)).
Proof.
  intros Hbuild Hsave.
  unfold create_vector_store, wtry, wbind, wlift, set_manager, set_store_dir.
  rewrite Hbuild. simpl. by rewrite Hsave.
Qed.

(** Cleaning leaves an empty directory, whatever was there. *)
Lemma clean_vector_store_ok w :
  rmtree io = Ok tt -> mkdir io = Ok tt ->
  clean_vector_store io w = (Ok tt, mkWorld (manager w) (Some None)).
Proof.
  intros Hrm Hmk.
  unfold clean_vector_store, wtry, wbind, wlift, wret.
  unfold get_store_dir, set_store_dir.
  destruct w as [m [d|]]; simpl; by rewrite ?Hrm, Hmk.
Qed.

End Build.

(** X16: after [create_vector_store] succeeded, the manager holds the index
    built from the chunks and the directory holds the same index; searches
    through that manager are answered by this index without a load. *)
Theorem created_store_serves_searches io chunks vs w :
  from_documents io chunks = Ok vs ->
  save_local io vs = Ok tt ->
  create_vector_store io chunks w
    = (Ok tt, mkWorld (mkManager (Some vs)) (Some (Some vs))) /\
  forall env query k,
    (create_vector_store io chunks ;;> on_manager (search env query k)) w
    = (similarity_search vs query k,
       mkWorld (mkManager (Some vs)) (Some (Some vs))).
Proof.
  intros Hbuild Hsave.
  pose proof (create_vector_store_ok io chunks vs w Hbuild Hsave) as Hc.
  split; [exact Hc|]. intros env query k.
  unfold wbind. rewrite Hc. unfold on_manager. cbn [manager store_dir].
  by rewrite (search_loaded env query k (mkManager (Some vs)) vs).
Qed.

Lemma created_store_serves_searches_witness :
  create_vector_store io_ok [mkDocument page2 ∅] before
    = (Ok tt, mkWorld (mkManager (Some (index_of [mkDocument page2 ∅])))
                (Some (Some (index_of [mkDocument page2 ∅])))) /\
  forall env query k,
    (create_vector_store io_ok [mkDocument page2 ∅] ;;>
     on_manager (search env query k)) before
    = (similarity_search (index_of [mkDocument page2 ∅]) query k,
       mkWorld (mkManager (Some (index_of [mkDocument page2 ∅])))
         (Some (Some (index_of [mkDocument page2 ∅])))).
Proof.
  apply (created_store_serves_searches io_ok [mkDocument page2 ∅]
           (index_of [mkDocument page2 ∅]) before); reflexivity.
Defined.

(** X17: when the index was built and saving it raises,
    [create_vector_store] raises that error, yet the manager already holds
    the new index: searches through it in the same process are answered. *)
Theorem save_failure_keeps_memory_index io chunks vs e w :
  from_documents io chunks = Ok vs ->
  save_local io vs = Raise e ->
  fst (create_vector_store io chunks w) = Raise e /\
  manager (snd (create_vector_store io chunks w)) = mkManager (Some vs) /\
  forall env query k,
    fst (search env query k (manager (snd (create_vector_store io chunks w))))
    = similarity_search vs query k.
Proof.
  intros Hbuild Hsave.
  rewrite (create_vector_store_save_fails io chunks vs e w Hbuild Hsave).
  repeat split. intros env query k. cbn [snd manager].
  by rewrite (search_loaded env query k (mkManager (Some vs)) vs).
Qed.

Lemma save_failure_keeps_memory_index_witness :
  fst (create_vector_store io_disk_full [mkDocument page2 ∅] before)
    = Raise disk_full /\
  manager (snd (create_vector_store io_disk_full [mkDocument page2 ∅] before))
    = mkManager (Some (index_of [mkDocument page2 ∅])) /\
  forall env query k,
    fst (search env query k
           (manager (snd (create_vector_store io_disk_full
                            [mkDocument page2 ∅] before))))
    = similarity_search (index_of [mkDocument page2 ∅]) query k.
Proof.
  apply (save_failure_keeps_memory_index io_disk_full [mkDocument page2 ∅]
           (index_of [mkDocument page2 ∅]) disk_full before); reflexivity.
Defined.

(** ** Ingestion *)

(** X18: without a Docs directory, or without a PDF in it, ingestion
    returns at once and leaves the vector store directory and the manager
    as they were. *)
Theorem ingest_without_pdfs_changes_nothing io w :
  docs_dir_exists io = false \/ glob_pdf io = [] ->
  ingest_documents io w = (Ok tt, w).
Proof.
  intros Hguard. unfold ingest_documents, wtry, wret.
  destruct (docs_dir_exists io); simpl.
  - destruct Hguard as [Hd | Hg]; [discriminate | by rewrite Hg].
  - done.
Qed.

Lemma ingest_without_pdfs_changes_nothing_witness :
  ingest_documents io_no_pdf before = (Ok tt, before).
Proof.
  apply (ingest_without_pdfs_changes_nothing io_no_pdf before).
  right. reflexivity.
Defined.

(** X19: when there are PDFs and every step succeeds, ingestion ends with
    the index built from the chunks of [process_documents], both in the
    manager and in the vector store directory, whatever the directory held
    before. *)
Theorem ingest_builds_index_from_documents io w vs :
  docs_dir_exists io = true ->
  glob_pdf io <> [] ->
  rmtree io = Ok tt ->
  mkdir io = Ok tt ->
  make_manager io = Ok tt ->
  from_documents io (process_documents io) = Ok vs ->
  save_local io vs = Ok tt ->
  ingest_documents io w
  = (Ok tt, mkWorld (mkManager (Some vs)) (Some (Some vs))).
Proof.
  intros Hdocs Hpdf Hrm Hmk Hmgr Hbuild Hsave.
  unfold ingest_documents, wtry. rewrite Hdocs. simpl.
  destruct (glob_pdf io) as [|f files] eqn:Hglob; [done|].
  unfold wbind at 1. rewrite (clean_vector_store_ok io w Hrm Hmk).
  unfold wbind, wlift, set_manager. rewrite Hmgr. cbn [store_dir].
  by rewrite (create_vector_store_ok io _ vs _ Hbuild Hsave).
Qed.

Lemma ingest_builds_index_from_documents_witness :
  ingest_documents io_ok before
  = (Ok tt,
     mkWorld (mkManager (Some (index_of (process_documents io_ok))))
       (Some (Some (index_of (process_documents io_ok))))).
Proof.
  apply (ingest_builds_index_from_documents io_ok before
           (index_of (process_documents io_ok)));
    solve [reflexivity | discriminate].
Defined.

(** X20: the old index is removed before the new one is built. When there
    are PDFs, the directory was cleaned, and building the index from the
    chunks raises, ingestion raises that error and leaves the vector store
    directory empty: the index that was there before is gone. *)
Theorem failed_ingest_loses_old_index io w e :
  docs_dir_exists io = true ->
  glob_pdf io <> [] ->
  rmtree io = Ok tt ->
  mkdir io = Ok tt ->
  make_manager io = Ok tt ->
  from_documents io (process_documents io) = Raise e ->
  ingest_documents io w = (Raise e, mkWorld (mkManager None) (Some None)).
Proof.
  intros Hdocs Hpdf Hrm Hmk Hmgr Hbuild.
  unfold ingest_documents, wtry. rewrite Hdocs. simpl.
  destruct (glob_pdf io) as [|f files] eqn:Hglob; [done|].
  unfold wbind at 1. rewrite (clean_vector_store_ok io w Hrm Hmk).
  unfold wbind, wlift, set_manager. rewrite Hmgr. cbn [store_dir].
  by rewrite (create_vector_store_build_fails io _ e _ Hbuild).
Qed.

Lemma failed_ingest_loses_old_index_witness :
  ingest_documents io_no_embeddings before
  = (Raise no_embeddings, mkWorld (mkManager None) (Some None)).
Proof.
  apply (failed_ingest_loses_old_index io_no_embeddings before no_embeddings);
    solve [reflexivity | discriminate].
Defined.

(** ** The command line *)

Section Session.

Context (env : Collaborators) (sh : Shell).

Lemma guard_passes :
  vector_store_dir_exists sh = true ->
  vector_store_dir_listing sh <> [] ->
  negb (vector_store_dir_exists sh)
  || bool_decide (vector_store_dir_listing sh = []) = false.
Proof. intros -> Hl. simpl. by apply bool_decide_eq_false. Qed.

(** Drawing the graph may fail: the agent is built all the same. *)
Lemma agent_built :
  make_clients sh = Ok tt -> RAGAgent_init sh = Ok (mkManager None).
Proof.
  intros H. unfold RAGAgent_init. rewrite H. simpl.
  by destruct (save_graph_png sh) as [[]|].
Qed.


Lemma question_loop_without_exit lines agent out :
  Forall (fun l => ~ says_exit sh l) lines ->
  exists e t',
    question_loop env sh lines agent out = (Raise e, t') /\
    (e = EOFError \/
     exists line agent0 agent1,
       line ∈ lines /\
       process_question env (str_strip sh line) agent0 = (Raise e, agent1)).
Proof.
  intros Hno. revert agent out.
  induction Hno as [|l lines Hl _ IH]; intros agent out.
  - eexists _, _. split; [reflexivity|by left].
  - cbn [question_loop]. rewrite decide_False by exact Hl.
    destruct (process_question env (str_strip sh l) agent)
      as [[response|e] agent'] eqn:Hpq.
    + destruct (IH agent' (print response
                             (print response_header (out ++ [prompt]))))
        as (e & t' & Hloop & Hwhy).
      exists e, t'. split; [exact Hloop|].
      destruct Hwhy as [->|(line & a0 & a1 & Hin & Hq)]; [by left|].
      right. exists line, a0, a1. split; [by right|done].
    + eexists _, _. split; [reflexivity|]. right.
      exists l, agent, agent'. split; [left|done].
Qed.

Lemma process_question_index_absent q mgr :
  vector_store mgr = None -> index_path_exists env = false ->
  process_question env q mgr = (Raise IndexNotInitialized, mgr).
Proof.
  intros Hnone Hpath.
  destruct (analyze_query_total env (initial_state q)) as [v Hv].
  eapply process_question_search_raises; [exact Hv|].
  by apply search_absent.
Qed.

End Session.

Import MainScenarios.

(** X21: when the vector store directory is missing or empty, [main]
    returns without building an agent: nothing is read, nothing is
    written, no question is processed, and no error is raised. *)
Theorem main_refuses_without_store env sh question t :
  vector_store_dir_exists sh = false \/ vector_store_dir_listing sh = [] ->
  main env sh question t = (Ok tt, t).
Proof.
  intros Hguard. unfold main.
  destruct Hguard as [-> | ->]; [done|].
  by rewrite orb_true_r.
Qed.

Lemma main_refuses_without_store_witness :
  main env_ok shell_empty_dir (Some raw_question) session = (Ok tt, session).
Proof.
  apply (main_refuses_without_store env_ok shell_empty_dir
           (Some raw_question) session).
  right. reflexivity.
Defined.



(** X23: the interactive loop only ends normally on an exit line. When no
    line of the input says exit, [main] raises: EOFError once the input is
    used up, or before that the error of a question that
    [process_question] could not answer. *)
Theorem session_without_exit_raises env sh question t :
  vector_store_dir_exists sh = true ->
  vector_store_dir_listing sh <> [] ->
  make_clients sh = Ok tt ->
  given question = None ->
  Forall (fun l => ~ says_exit sh l) (stdin t) ->
  exists e t',
    main env sh question t = (Raise e, t') /\
    (e = EOFError \/
     exists line agent0 agent1,
       line ∈ stdin t /\
       process_question env (str_strip sh line) agent0 = (Raise e, agent1)).
Proof.
  intros Hdir Hlist Hclients Hgiven Hno. unfold main.
  rewrite (guard_passes sh Hdir Hlist), (agent_built sh Hclients), Hgiven.
  by apply question_loop_without_exit.
Qed.

Lemma session_without_exit_raises_witness :
  exists e t',
    main env_ok shell_ok None endless = (Raise e, t') /\
    (e = EOFError \/
     exists line agent0 agent1,
       line ∈ stdin endless /\
       process_question env_ok (str_strip shell_ok line) agent0
       = (Raise e, agent1)).
Proof.
  apply (session_without_exit_raises env_ok shell_ok None endless);
    try solve [reflexivity | discriminate].
  repeat constructor; discriminate.
Defined.

(** X24: the directory check of [main] does not tell whether an index was
    saved. With a non-empty vector store directory that holds no index, a
    question given on the command line ends in the "Vector store not
    found" error of the retrieval stage, and nothing is printed. *)
Theorem main_raises_without_index env sh q t :
  vector_store_dir_exists sh = true ->
  vector_store_dir_listing sh <> [] ->
  make_clients sh = Ok tt ->
  q <> "" ->
  index_path_exists env = false ->
  main env sh (Some q) t = (Raise IndexNotInitialized, t).
Proof.
  intros Hdir Hlist Hclients Hq Hpath. unfold main.
  rewrite (guard_passes sh Hdir Hlist), (agent_built sh Hclients).
  assert (Hgiven : given (Some q) = Some q) by (by destruct q).
  rewrite Hgiven.
  by rewrite (process_question_index_absent env q (mkManager None)).
Qed.

Lemma main_raises_without_index_witness :
  main env_absent shell_stray_file (Some raw_question) session
  = (Raise IndexNotInitialized, session).
Proof.
  apply (main_raises_without_index env_absent shell_stray_file raw_question
           session); solve [reflexivity | discriminate].
Defined.
